(** * Algorithmic-Trading-Framework: ledger, strategies and analytics

    A shallow embedding of
      - [examples/simple_backtest.py]  (SimpleBacktester, the SMA crossover driver
        and its analytics),
      - [strategies/base_strategy.py]  (BaseStrategy: buy, sell, sizing, metrics),
      - [strategies/mean_reversion.py] (MeanReversionStrategy: RSI, entry and exit).

    Numbers.  The Python code is written over [int] and [float].  Every
    quantity is embedded as an exact rational ([Q]); sums, products, quotients
    and comparisons are the exact ones, so the theorems below speak about the
    arithmetic the program text denotes, not about binary rounding.  Two
    non-finite values do occur in the source and are embedded explicitly:
    [float('inf')] (type [xfloat]) and NaN, the value of an undefined rolling
    mean, of the first [diff] and of the mean of an empty array (an [option]
    whose [None] is NaN; every comparison with NaN is false, as in Python).

    Mutation.  Methods that update [self] become functions returning the new
    object; a method that may raise returns a [result]. *)

From Stdlib Require Import QArith Qabs Qround Qminmax Lqa ZArith List Lia Bool String.
Import ListNotations.
Open Scope Q_scope.

(** ** Python values shared by the three files *)

(** Exceptions the embedded code can raise. *)
Inductive exn : Type :=
| KeyError
| AttributeError.

Inductive result (A : Type) : Type :=
| Returned (a : A)
| Raised (e : exn).
Arguments Returned {A} a.
Arguments Raised {A} e.

Definition bind {A B : Type} (r : result A) (k : A -> result B) : result B :=
  match r with
  | Returned a => k a
  | Raised e => Raised e
  end.

Notation "x <- c ;; k" := (bind c (fun x => k))
  (at level 61, c at next level, right associativity).

(** A float that may be [float('inf')]. *)
Inductive xfloat : Type :=
| Fin (q : Q)
| PosInf.

(** [a > b] *)
Definition Qgt_bool (a b : Q) : bool := negb (Qle_bool a b).
(** [a < b] *)
Definition Qlt_bool (a b : Q) : bool := negb (Qle_bool b a).

(** [a > b] for a finite [a] and a possibly infinite [b]. *)
Definition gt_xfloat (a : Q) (b : xfloat) : bool :=
  match b with
  | Fin q => Qgt_bool a q
  | PosInf => false
  end.

(** [a // b] on floats: the floor of the quotient.  With [b = 0] the row
    values are numpy floats, the quotient is [inf] or NaN and every later
    test on it fails; [Q]'s [a / 0 = 0] gives the same "no order" outcome in
    the one place the operator is used. *)
Definition floordiv (a b : Q) : Q := inject_Z (Qfloor (a / b)).

(** [sum(xs)] *)
Definition Qsum (xs : list Q) : Q := fold_left Qplus xs 0.

(** [len(xs)] as a number. *)
Definition len {A : Type} (xs : list A) : Q := inject_Z (Z.of_nat (List.length xs)).

(** ** examples/simple_backtest.py *)

Module SimpleBacktester.

(** [t['type']] *)
Inductive trade_type : Type :=
| BUY
| SELL.

(** The dict appended to [self.trades].  A BUY record has the key ['cost']
    and no ['proceeds']; a SELL record has ['proceeds'] and no ['cost']: an
    absent key is [None]. *)
Record trade : Type := mk_trade {
  timestamp : Z;
  type : trade_type;
  price : Q;
  shares : Q;
  cost : option Q;
  proceeds : option Q
}.

(** The dict appended to [equity_curve]. *)
Record equity_point : Type := mk_point {
  point_timestamp : Z;
  value : Q
}.

Record backtester : Type := mk_backtester {
  initial_capital : Q;
  commission : Q;
  capital : Q;
  position : Q;
  trades : list trade;
  equity_curve : list equity_point
}.

(** [SimpleBacktester(initial_capital, commission)]: [__init__] then [reset]. *)
Definition init (initial_capital commission : Q) : backtester :=
  {| initial_capital := initial_capital;
     commission := commission;
     capital := initial_capital;
     position := 0;
     trades := [];
     equity_curve := [] |}.

(** [execute_trade(self, price, shares, timestamp)] *)
Definition execute_trade (self : backtester) (price shares : Q) (timestamp : Z)
  : backtester :=
  let cost := Qabs (shares * price) in
  let commission_cost := cost * commission self in
  if Qgt_bool shares 0 then
    let total_cost := cost + commission_cost in
    if Qle_bool total_cost (capital self) then
      {| initial_capital := initial_capital self;
         commission := commission self;
         capital := capital self - total_cost;
         position := position self + shares;
         trades := trades self ++
                   [ {| timestamp := timestamp; type := BUY; price := price;
                        shares := shares; cost := Some total_cost;
                        proceeds := None |} ];
         equity_curve := equity_curve self |}
    else self
  else
    let shares_to_sell := Qabs shares in
    if Qle_bool shares_to_sell (position self) then
      let proceeds := cost - commission_cost in
      {| initial_capital := initial_capital self;
         commission := commission self;
         capital := capital self + proceeds;
         position := position self - shares_to_sell;
         trades := trades self ++
                   [ {| timestamp := timestamp; type := SELL; price := price;
                        shares := shares_to_sell; cost := None;
                        proceeds := Some proceeds |} ];
         equity_curve := equity_curve self |}
    else self.

(** [get_portfolio_value(self, current_price)] *)
Definition get_portfolio_value (self : backtester) (current_price : Q) : Q :=
  capital self + position self * current_price.


(** *** The crossover driver *)

(** One row of the [data] frame as the caller passes it: the index and the
    ['close'] column (the other price columns are never read). *)
Record bar : Type := mk_bar {
  idx : Z;
  close : Q
}.

(** [prices.rolling(window=period).mean()]: NaN until [period] observations
    exist, then the mean of the [period] most recent ones (NaN throughout
    for an empty window). *)
Definition calculate_sma (prices : list Q) (period : nat) : list (option Q) :=
  map (fun i =>
         if ((1 <=? period) && (period <=? S i))%nat
         then Some (Qsum (firstn period (skipn (S i - period) prices))
                    / inject_Z (Z.of_nat period))
         else None)
      (seq 0 (List.length prices)).

(** [data['signal']]: 0, then 1 where fast > slow, then -1 where fast < slow
    (the assignment made last is tested first); a comparison with NaN selects
    nothing. *)
Definition signal (sma_fast sma_slow : option Q) : Z :=
  match sma_fast, sma_slow with
  | Some f, Some s =>
      if Qlt_bool f s then (-1)%Z else if Qgt_bool f s then 1%Z else 0%Z
  | _, _ => 0%Z
  end.

(** [series.diff()]: NaN, then the difference with the previous element. *)
Fixpoint diff_from (prev : Z) (xs : list Z) : list (option Z) :=
  match xs with
  | [] => []
  | x :: rest => Some (x - prev)%Z :: diff_from x rest
  end.

Definition diff (xs : list Z) : list (option Z) :=
  match xs with
  | [] => []
  | x :: rest => None :: diff_from x rest
  end.

(** A row as [data.iterrows()] yields it once the columns are added; only
    ['close'] and ['position'] (the signal change) are read by the loop. *)
Record row : Type := mk_row {
  row_idx : Z;
  row_close : Q;
  row_position : option Z
}.

Definition add_columns (data : list bar) (fast_period slow_period : nat)
  : list row :=
  let closes := map close data in
  let sma_fast := calculate_sma closes fast_period in
  let sma_slow := calculate_sma closes slow_period in
  let signals := map (fun fs => signal (fst fs) (snd fs))
                     (combine sma_fast sma_slow) in
  map (fun bp => {| row_idx := idx (fst bp); row_close := close (fst bp);
                    row_position := snd bp |})
      (combine data (diff signals)).

(** [self.equity_curve.append(...)] *)
Definition track_equity (self : backtester) (p : equity_point) : backtester :=
  {| initial_capital := initial_capital self;
     commission := commission self;
     capital := capital self;
     position := position self;
     trades := trades self;
     equity_curve := equity_curve self ++ [p] |}.

(** The body of [for idx, row in data.iterrows()]. *)
Definition on_row (self : backtester) (r : row) : backtester :=
  let traded :=
    match row_position r with
    | Some p =>
        if (0 <? p)%Z then
          let shares_to_buy := floordiv (capital self * (1 # 2)) (row_close r) in
          if Qgt_bool shares_to_buy 0
          then execute_trade self (row_close r) shares_to_buy (row_idx r)
          else self
        else if (p <? 0)%Z then
          if Qgt_bool (position self) 0
          then execute_trade self (row_close r) (- position self) (row_idx r)
          else self
        else self
    | None => self
    end in
  track_equity traded
    {| point_timestamp := row_idx r;
       value := get_portfolio_value traded (row_close r) |}.

Definition run_loop (self : backtester) (rows : list row) : backtester :=
  fold_left on_row rows self.

(** *** Analytics *)

(** [series.expanding().max()] *)
Fixpoint expanding_max_from (m : Q) (xs : list Q) : list Q :=
  match xs with
  | [] => []
  | x :: rest => Qmax m x :: expanding_max_from (Qmax m x) rest
  end.

Definition expanding_max (xs : list Q) : list Q :=
  match xs with
  | [] => []
  | x :: rest => x :: expanding_max_from x rest
  end.

(** [(values - running_max) / running_max], element by element.  (Where the
    running maximum is 0 pandas yields NaN or an infinity; [Q]'s [x / 0 = 0]
    stands there, and the statements about drawdown take positive values.) *)
Definition drawdown (values : list Q) : list Q :=
  map (fun vm => (fst vm - snd vm) / snd vm)
      (combine values (expanding_max values)).

(** [series.min()]; NaN on an empty series. *)
Definition series_min (xs : list Q) : option Q :=
  match xs with
  | [] => None
  | x :: rest => Some (fold_left Qmin rest x)
  end.

Definition max_drawdown (values : list Q) : option Q :=
  series_min (drawdown values).

(** [t.get(key, default)] on an optional key. *)
Definition get {A : Type} (field : option A) (default : A) : A :=
  match field with
  | Some v => v
  | None => default
  end.

Definition is_sell (t : trade) : bool :=
  match type t with
  | SELL => true
  | BUY => false
  end.

(** [sum(1 for t in trades if t['type'] == 'SELL' and
          t.get('proceeds', 0) > t.get('cost', float('inf')))] *)
Definition winning_trades (ts : list trade) : nat :=
  List.length
    (filter (fun t => is_sell t &&
                      gt_xfloat (get (proceeds t) 0)
                                (get (option_map Fin (cost t)) PosInf))
            ts).

(** [len([t for t in trades if t['type'] == 'SELL'])] *)
Definition total_sell_trades (ts : list trade) : nat :=
  List.length (filter is_sell ts).

Definition win_rate (ts : list trade) : Q :=
  if (0 <? total_sell_trades ts)%nat
  then inject_Z (Z.of_nat (winning_trades ts))
       / inject_Z (Z.of_nat (total_sell_trades ts))
  else 0.

(** The dict returned by [run_sma_crossover_backtest]. *)
Record results : Type := mk_results {
  res_initial_capital : Q;
  res_final_value : Q;
  res_total_return : Q;
  res_max_drawdown : option Q;
  res_total_trades : nat;
  res_win_rate : Q;
  res_equity_curve : list equity_point;
  res_trades : list trade
}.

(** [run_sma_crossover_backtest(data, fast_period, slow_period)].  On an
    empty frame the equity frame has no ['value'] column and the lookup
    raises. *)
Definition run_sma_crossover_backtest
  (data : list bar) (fast_period slow_period : nat) : result results :=
  let rows := add_columns data fast_period slow_period in
  let backtester := run_loop (init 10000 (1 # 1000)) rows in
  let values := map value (equity_curve backtester) in
  match rev values with
  | [] => Raised KeyError
  | final_value :: _ =>
      Returned
        {| res_initial_capital := initial_capital backtester;
           res_final_value := final_value;
           res_total_return :=
             (final_value - initial_capital backtester)
             / initial_capital backtester;
           res_max_drawdown := max_drawdown values;
           res_total_trades := List.length (trades backtester);
           res_win_rate := win_rate (trades backtester);
           res_equity_curve := equity_curve backtester;
           res_trades := trades backtester |}
  end.

End SimpleBacktester.

(** ** strategies/base_strategy.py *)

Module BaseStrategy.

(** The [Trade] dataclass. *)
Record Trade : Type := mk_Trade {
  entry_time : Z;
  exit_time : Z;
  entry_price : Q;
  exit_price : Q;
  size : Q;
  pnl : Q;
  return_pct : Q
}.

(** What [self.trades] holds at run time: the annotation says [List[Trade]],
    the subclass appends plain dicts (keys in insertion order). *)
Inductive trade_entry : Type :=
| TradeObject (t : Trade)
| Dict (items : list (string * Q)).

Record strategy : Type := mk_strategy {
  name : string;
  position : Q;
  trades : list trade_entry;
  equity_curve : list Q;
  current_capital : Q
}.

(** [BaseStrategy.__init__(self, name)] *)
Definition init (name : string) : strategy :=
  {| name := name;
     position := 0;
     trades := [];
     equity_curve := [];
     current_capital := 0 |}.

Definition set_position (self : strategy) (p : Q) : strategy :=
  {| name := name self;
     position := p;
     trades := trades self;
     equity_curve := equity_curve self;
     current_capital := current_capital self |}.

Definition append_trade (self : strategy) (t : trade_entry) : strategy :=
  {| name := name self;
     position := position self;
     trades := trades self ++ [t];
     equity_curve := equity_curve self;
     current_capital := current_capital self |}.

(** [buy(self, size, price=None)] *)
Definition buy (self : strategy) (size : Q) (price : option Q) : strategy :=
  set_position self (position self + size).

(** [sell(self, size=None, price=None)] *)
Definition sell (self : strategy) (size : option Q) (price : option Q)
  : strategy :=
  let size := match size with
              | None => position self
              | Some size => size
              end in
  set_position self (position self - size).

(** [calculate_position_size(self, risk_per_trade=0.02)] *)
Definition calculate_position_size (self : strategy) (risk_per_trade : Q) : Q :=
  let risk_amount := current_capital self * risk_per_trade in
  risk_amount / 100.

Definition default_risk_per_trade : Q := 2 # 100.

(** [t.pnl]: an attribute of a [Trade], absent from a dict. *)
Definition getattr_pnl (t : trade_entry) : result Q :=
  match t with
  | TradeObject t => Returned (pnl t)
  | Dict _ => Raised AttributeError
  end.

(** [[t for t in ts if test(t.pnl)]] *)
Fixpoint select_by_pnl (test : Q -> bool) (ts : list trade_entry)
  : result (list trade_entry) :=
  match ts with
  | [] => Returned []
  | t :: rest =>
      p <- getattr_pnl t ;;
      kept <- select_by_pnl test rest ;;
      Returned (if test p then t :: kept else kept)
  end.

(** [sum(t.pnl for t in ts)], accumulating from the left. *)
Fixpoint sum_pnl_from (acc : Q) (ts : list trade_entry) : result Q :=
  match ts with
  | [] => Returned acc
  | t :: rest => p <- getattr_pnl t ;; sum_pnl_from (acc + p) rest
  end.

Definition sum_pnl (ts : list trade_entry) : result Q := sum_pnl_from 0 ts.

(** Nearest integer, ties to the even one. *)
Definition round_half_even (x : Q) : Z :=
  let f := Qfloor x in
  let r := x - inject_Z f in
  if Qlt_bool r (1 # 2) then f
  else if Qgt_bool r (1 # 2) then (f + 1)%Z
  else if Z.even f then f else (f + 1)%Z.

(** [round(x, ndigits)] *)
Definition round (x : Q) (ndigits : nat) : Q :=
  let scale := inject_Z (10 ^ Z.of_nat ndigits) in
  inject_Z (round_half_even (x * scale)) / scale.

(** [get_metrics(self)]: the returned dict, keys in insertion order. *)
Definition get_metrics (self : strategy) : result (list (string * Q)) :=
  match trades self with
  | [] => Returned [("total_trades"%string, 0)]
  | _ :: _ =>
      winning_trades <- select_by_pnl (fun p => Qgt_bool p 0) (trades self) ;;
      losing_trades <- select_by_pnl (fun p => Qlt_bool p 0) (trades self) ;;
      total_pnl <- sum_pnl (trades self) ;;
      let win_rate := len winning_trades / len (trades self) in
      avg_win <- match winning_trades with
                 | [] => Returned 0
                 | _ :: _ => s <- sum_pnl winning_trades ;;
                             Returned (s / len winning_trades)
                 end ;;
      avg_loss <- match losing_trades with
                  | [] => Returned 0
                  | _ :: _ => s <- sum_pnl losing_trades ;;
                              Returned (s / len losing_trades)
                  end ;;
      Returned
        [ ("total_trades"%string, len (trades self));
          ("winning_trades"%string, len winning_trades);
          ("losing_trades"%string, len losing_trades);
          ("win_rate"%string, round win_rate 3);
          ("total_pnl"%string, round total_pnl 2);
          ("average_win"%string, round avg_win 2);
          ("average_loss"%string, round avg_loss 2) ]
  end.

End BaseStrategy.

(** ** strategies/mean_reversion.py *)

Module MeanReversionStrategy.

Record strategy : Type := mk_strategy {
  base : BaseStrategy.strategy;
  rsi_period : Z;
  rsi_oversold : Q;
  rsi_overbought : Q;
  price_history : list Q;
  entry_price : option Q
}.

(** The inherited attributes. *)
Definition position (self : strategy) : Q := BaseStrategy.position (base self).
Definition trades (self : strategy) : list BaseStrategy.trade_entry :=
  BaseStrategy.trades (base self).
Definition current_capital (self : strategy) : Q :=
  BaseStrategy.current_capital (base self).
Definition equity_curve (self : strategy) : list Q :=
  BaseStrategy.equity_curve (base self).

(** [MeanReversionStrategy.__init__(self, name, rsi_period, rsi_oversold,
    rsi_overbought)].  The body stores its arguments and has no [raise]; its
    outcome is a [result] so that a rejected configuration can be told from
    an accepted one. *)
Definition init (name : string) (rsi_period : Z) (rsi_oversold rsi_overbought : Q)
  : result strategy :=
  Returned
    {| base := BaseStrategy.init name;
       rsi_period := rsi_period;
       rsi_oversold := rsi_oversold;
       rsi_overbought := rsi_overbought;
       price_history := [];
       entry_price := None |}.

(** The defaults of the signature. *)
Definition default_name : string := "RSI Mean Reversion".
Definition default_rsi_period : Z := 14.
Definition default_rsi_oversold : Q := 30.
Definition default_rsi_overbought : Q := 70.

Definition set_base (self : strategy) (b : BaseStrategy.strategy) : strategy :=
  {| base := b;
     rsi_period := rsi_period self;
     rsi_oversold := rsi_oversold self;
     rsi_overbought := rsi_overbought self;
     price_history := price_history self;
     entry_price := entry_price self |}.

Definition set_entry_price (self : strategy) (e : option Q) : strategy :=
  {| base := base self;
     rsi_period := rsi_period self;
     rsi_oversold := rsi_oversold self;
     rsi_overbought := rsi_overbought self;
     price_history := price_history self;
     entry_price := e |}.

Definition append_price (self : strategy) (p : Q) : strategy :=
  {| base := base self;
     rsi_period := rsi_period self;
     rsi_oversold := rsi_oversold self;
     rsi_overbought := rsi_overbought self;
     price_history := price_history self ++ [p];
     entry_price := entry_price self |}.

(** [xs[k:]] with Python's treatment of a negative or too large [k]. *)
Definition slice_from {A : Type} (xs : list A) (k : Z) : list A :=
  let n := Z.of_nat (List.length xs) in
  let start := if (k <? 0)%Z then Z.max 0 (n + k) else Z.min k n in
  skipn (Z.to_nat start) xs.

(** [np.diff(prices)] *)
Fixpoint np_diff_from (prev : Q) (prices : list Q) : list Q :=
  match prices with
  | [] => []
  | p :: rest => (p - prev) :: np_diff_from p rest
  end.

Definition np_diff (prices : list Q) : list Q :=
  match prices with
  | [] => []
  | p :: rest => np_diff_from p rest
  end.

(** [np.mean(xs)]; NaN on an empty array. *)
Definition np_mean (xs : list Q) : option Q :=
  match xs with
  | [] => None
  | _ :: _ => Some (Qsum xs / len xs)
  end.

(** [_calculate_rsi(self)]; [None] is NaN. *)
Definition _calculate_rsi (self : strategy) : option Q :=
  let prices := slice_from (price_history self) (- (rsi_period self + 1)) in
  let deltas := np_diff prices in
  let gains := map (fun d => if Qgt_bool d 0 then d else 0) deltas in
  let losses := map (fun d => if Qlt_bool d 0 then - d else 0) deltas in
  match np_mean gains, np_mean losses with
  | Some avg_gain, Some avg_loss =>
      if Qeq_bool avg_loss 0 then Some 100
      else
        let rs := avg_gain / avg_loss in
        let rsi := 100 - 100 / (1 + rs) in
        Some rsi
  | _, _ => None
  end.

(** Truth value of [self.entry_price]: [None] and [0.0] are false. *)
Definition truthy (e : option Q) : bool :=
  match e with
  | Some p => negb (Qeq_bool p 0)
  | None => false
  end.

(** [_record_trade(self, exit_price)] *)
Definition _record_trade (self : strategy) (exit_price : Q) : strategy :=
  match entry_price self with
  | Some entry =>
      if truthy (Some entry) then
        let pnl := (exit_price - entry) * position self in
        let return_pct := (exit_price - entry) / entry in
        set_base self
          (BaseStrategy.append_trade (base self)
             (BaseStrategy.Dict [ ("pnl"%string, pnl);
                                  ("return"%string, return_pct);
                                  ("entry"%string, entry);
                                  ("exit"%string, exit_price) ]))
      else self
  | None => self
  end.

(** [rsi < x] and [rsi > x]; false on NaN. *)
Definition rsi_lt (rsi : option Q) (x : Q) : bool :=
  match rsi with
  | Some r => Qlt_bool r x
  | None => false
  end.

Definition rsi_gt (rsi : option Q) (x : Q) : bool :=
  match rsi with
  | Some r => Qgt_bool r x
  | None => false
  end.

(** [self.entry_price and close_price < self.entry_price * 0.95] *)
Definition stop_loss_hit (self : strategy) (close_price : Q) : bool :=
  match entry_price self with
  | Some entry => truthy (Some entry) && Qlt_bool close_price (entry * (95 # 100))
  | None => false
  end.

(** The three statements both exits of [on_data] consist of: sell the whole
    position, record the trade, clear the entry price. *)
Definition exit_long (self : strategy) (close_price : Q) : strategy :=
  let self := set_base self (BaseStrategy.sell (base self) None (Some close_price)) in
  let self := _record_trade self close_price in
  set_entry_price self None.

(** [on_data(self, data)], with [data['close']] as the argument. *)
Definition on_data (self : strategy) (close_price : Q) : strategy :=
  let self := append_price self close_price in
  if (Z.of_nat (List.length (price_history self)) <? rsi_period self + 1)%Z
  then self
  else
    let rsi := _calculate_rsi self in
    if Qeq_bool (position self) 0 then
      if rsi_lt rsi (rsi_oversold self) then
        let size := BaseStrategy.calculate_position_size
                      (base self) BaseStrategy.default_risk_per_trade in
        let self := set_base self
                      (BaseStrategy.buy (base self) size (Some close_price)) in
        set_entry_price self (Some close_price)
      else self
    else if Qgt_bool (position self) 0 then
      if rsi_gt rsi (rsi_overbought self) then exit_long self close_price
      else if stop_loss_hit self close_price then exit_long self close_price
      else self
    else self.

End MeanReversionStrategy.

(** * Vocabulary of the statements *)

Module Ledger.
Import SimpleBacktester.

(** The states a ledger can be in after any sequence of [execute_trade]
    calls and equity recordings, starting from [s0]. *)
Inductive reachable (s0 : backtester) : backtester -> Prop :=
| reachable_start : reachable s0 s0
| reachable_trade (s : backtester) (p sh : Q) (ts : Z) :
    reachable s0 s -> reachable s0 (execute_trade s p sh ts)
| reachable_equity (s : backtester) (pt : equity_point) :
    reachable s0 s -> reachable s0 (track_equity s pt).

(** Two rows at positive closes for a ledger that charges a commission rate
    of 2: a buy signal at 3, then a sell signal at 100. *)
Definition overcharged_rows : list row :=
  [ mk_row 0 3 (Some 1%Z); mk_row 1 100 (Some (-1)%Z) ].

End Ledger.

Module Analytics.
Import SimpleBacktester.

(** "The maximum equity value seen up to and including index i". *)
Definition running_max (equity : list Q) (i : nat) : Q :=
  match firstn (S i) equity with
  | [] => 0
  | x :: rest => fold_left Qmax rest x
  end.

(** "(equity[i] - running_max(equity[0..i])) / running_max(equity[0..i])". *)
Definition drawdown_at (equity : list Q) (i : nat) : Q :=
  (nth i equity 0 - running_max equity i) / running_max equity i.

(** [m] is the minimum of [f 0 .. f (n-1)]. *)
Definition is_min_over (n : nat) (f : nat -> Q) (m : Q) : Prop :=
  (exists i, (i < n)%nat /\ m == f i) /\
  (forall i, (i < n)%nat -> m <= f i).

Definition non_decreasing (equity : list Q) : Prop :=
  forall i j, (i <= j < List.length equity)%nat ->
              nth i equity 0 <= nth j equity 0.

(** The win count in the spec's words: a SELL wins when its proceeds exceed
    the cost of the buy it closes, the most recent BUY before it. *)
Fixpoint matched_wins (entry_cost : option Q) (ts : list trade) : nat :=
  match ts with
  | [] => 0
  | t :: rest =>
      match type t with
      | BUY => matched_wins (cost t) rest
      | SELL =>
          let won := match proceeds t, entry_cost with
                     | Some got, Some paid => Qgt_bool got paid
                     | _, _ => false
                     end in
          ((if won then 1 else 0) + matched_wins entry_cost rest)%nat
      end
  end.

Definition spec_win_rate (ts : list trade) : Q :=
  if (0 <? total_sell_trades ts)%nat
  then inject_Z (Z.of_nat (matched_wins None ts))
       / inject_Z (Z.of_nat (total_sell_trades ts))
  else 0.

(** A SELL record carries no ['cost'] key. *)
Definition sell_without_cost (t : trade) : Prop :=
  type t = SELL -> cost t = None.

(** Five daily closes: flat at 10, up to 20 and 30, then 29.  With windows 1
    and 2 the fast average crosses above the slow one at 20 and below it at
    29. *)
Definition profitable_round_trip : list bar :=
  [ mk_bar 0 10; mk_bar 1 10; mk_bar 2 20; mk_bar 3 30; mk_bar 4 29 ].

End Analytics.

Module Orders.
Import BaseStrategy.

(** A call of one of the two order methods of [BaseStrategy]. *)
Inductive call : Type :=
| Buy (size : Q) (price : option Q)
| Sell (size : option Q) (price : option Q).

Definition perform (self : strategy) (c : call) : strategy :=
  match c with
  | Buy size price => buy self size price
  | Sell size price => sell self size price
  end.

(** A call the current position can honour: a buy of a non-negative size, a
    sell of the whole position or of at most the position. *)
Definition covered (self : strategy) (c : call) : Prop :=
  match c with
  | Buy size _ => 0 <= size
  | Sell None _ => True
  | Sell (Some size) _ => size <= position self
  end.

Fixpoint all_covered (self : strategy) (cs : list call) : Prop :=
  match cs with
  | [] => True
  | c :: rest => covered self c /\ all_covered (perform self c) rest
  end.

(** The entry is a plain dict, not a [Trade]. *)
Definition is_dict (t : trade_entry) : Prop :=
  match t with
  | Dict _ => True
  | TradeObject _ => False
  end.

(** Everything but the position is as before. *)
Definition same_books (self after : strategy) : Prop :=
  name after = name self /\
  current_capital after = current_capital self /\
  trades after = trades self /\
  equity_curve after = equity_curve self.

End Orders.

Module MeanReversion.
Import MeanReversionStrategy.

(** [strategy.current_capital = amount], the assignment by which a caller
    funds a strategy (no method of the class sets the attribute). *)
Definition funded (self : strategy) (amount : Q) : strategy :=
  set_base self
    {| BaseStrategy.name := BaseStrategy.name (base self);
       BaseStrategy.position := BaseStrategy.position (base self);
       BaseStrategy.trades := BaseStrategy.trades (base self);
       BaseStrategy.equity_curve := BaseStrategy.equity_curve (base self);
       BaseStrategy.current_capital := amount |}.

(** The states a strategy goes through: funded by its caller, fed bars. *)
Inductive reachable (s0 : strategy) : strategy -> Prop :=
| reachable_start : reachable s0 s0
| reachable_funded (s : strategy) (amount : Q) :
    reachable s0 s -> reachable s0 (funded s amount)
| reachable_bar (s : strategy) (close_price : Q) :
    reachable s0 s -> reachable s0 (on_data s close_price).

(** The options the spec calls valid:
    rsi_period > 0, 0 < oversold < 100, oversold < overbought < 100. *)
Definition valid_config (rsi_period : Z) (rsi_oversold rsi_overbought : Q)
  : Prop :=
  (0 < rsi_period)%Z /\
  (0 < rsi_oversold /\ rsi_oversold < 100) /\
  (rsi_oversold < rsi_overbought /\ rsi_overbought < 100).

(** The trailing [period + 1] closes. *)
Definition window (history : list Q) (period : nat) : list Q :=
  skipn (List.length history - S period) history.

(** Gain and loss of one step from [prev] to [cur]. *)
Definition step_gain (prev cur : Q) : Q := Qmax (cur - prev) 0.
Definition step_loss (prev cur : Q) : Q := Qmax (prev - cur) 0.

(** The per-step quantity [f] averaged over the [period] steps of [w]. *)
Definition average_over (f : Q -> Q -> Q) (w : list Q) (period : nat) : Q :=
  Qsum (map (fun j => f (nth j w 0) (nth (S j) w 0)) (seq 0 period))
  / inject_Z (Z.of_nat period).

(** Average gain and average loss over the [period] steps of the trailing
    [period + 1] closes. *)
Definition avg_gain (history : list Q) (period : nat) : Q :=
  average_over step_gain (window history period) period.
Definition avg_loss (history : list Q) (period : nat) : Q :=
  average_over step_loss (window history period) period.

(** A strategy with a one-step RSI, funded with 10000: the RSI is 0 after a
    fall and 100 after a rise. *)
Definition one_step_strategy : strategy :=
  funded {| base := BaseStrategy.init default_name;
            rsi_period := 1;
            rsi_oversold := default_rsi_oversold;
            rsi_overbought := default_rsi_overbought;
            price_history := [];
            entry_price := None |} 10000.

(** Closes 100, 90: the fall to 90 is bought (size 2). *)
Definition long_at_90 : strategy :=
  fold_left on_data [100; 90] one_step_strategy.

End MeanReversion.

Module Books.
Import SimpleBacktester.

(** The change of position and of cash a trade record stands for. *)
Definition shares_delta (t : trade) : Q :=
  match type t with
  | BUY => shares t
  | SELL => - shares t
  end.

Definition cash_delta (t : trade) : Q :=
  match type t with
  | BUY => - get (cost t) 0
  | SELL => get (proceeds t) 0
  end.

(** The amount of a record is the one its price, its size and the commission
    rate [c] give: the notional plus the commission on a BUY, the notional
    minus the commission on a SELL. *)
Definition recomputed (c : Q) (t : trade) : Prop :=
  0 <= shares t /\
  match type t with
  | BUY => proceeds t = None /\
           exists v, cost t = Some v /\
                     v == Qabs (shares t * price t) * (1 + c)
  | SELL => cost t = None /\
            exists v, proceeds t = Some v /\
                      v == Qabs (shares t * price t) * (1 - c)
  end.

End Books.

Module Driver.
Import SimpleBacktester.

(** The row carries no signal change: its ['position'] is NaN or 0. *)
Definition quiet (r : row) : Prop :=
  row_position r = None \/ row_position r = Some 0%Z.

End Driver.

Module Oscillator.

(** No step of the first [period] steps of [w] is a fall / is a rise. *)
Definition no_fall (w : list Q) (period : nat) : Prop :=
  forall j, (j < period)%nat -> nth j w 0 <= nth (S j) w 0.

Definition no_rise (w : list Q) (period : nat) : Prop :=
  forall j, (j < period)%nat -> nth (S j) w 0 <= nth j w 0.

End Oscillator.

Module Metrics.
Import BaseStrategy.

(** The entry is a [Trade] object. *)
Definition is_trade_object (t : trade_entry) : Prop :=
  match t with
  | TradeObject _ => True
  | Dict _ => False
  end.

(** The pnl of a [Trade] object. *)
Definition pnl_of (t : trade_entry) : Q :=
  match t with
  | TradeObject t => pnl t
  | Dict _ => 0
  end.

Definition winners (ts : list trade_entry) : list trade_entry :=
  filter (fun t => Qgt_bool (pnl_of t) 0) ts.

Definition losers (ts : list trade_entry) : list trade_entry :=
  filter (fun t => Qlt_bool (pnl_of t) 0) ts.

End Metrics.

Module Bookkeeping.
Import MeanReversionStrategy.

(** The options, the name, the capital and the equity curve of [after] are
    those of [before]. *)
Definition same_setup (before after : strategy) : Prop :=
  rsi_period after = rsi_period before /\
  rsi_oversold after = rsi_oversold before /\
  rsi_overbought after = rsi_overbought before /\
  BaseStrategy.name (base after) = BaseStrategy.name (base before) /\
  current_capital after = current_capital before /\
  equity_curve after = equity_curve before.

End Bookkeeping.

(** * Properties *)

(** ** Comparisons *)

Lemma Qlt_bool_iff (a b : Q) : Qlt_bool a b = true <-> a < b.
Proof.
  unfold Qlt_bool. rewrite negb_true_iff.
  destruct (Qle_bool b a) eqn:E.
  - apply Qle_bool_iff in E. split; [discriminate | intro H; exfalso; lra].
  - split; [intros _ | reflexivity].
    destruct (Qlt_le_dec a b) as [L | L]; [exact L | ].
    apply Qle_bool_iff in L. congruence.
Qed.

Lemma Qgt_bool_iff (a b : Q) : Qgt_bool a b = true <-> b < a.
Proof. exact (Qlt_bool_iff b a). Qed.

Lemma Qlt_bool_false_iff (a b : Q) : Qlt_bool a b = false <-> b <= a.
Proof.
  unfold Qlt_bool. rewrite negb_false_iff. apply Qle_bool_iff.
Qed.

Lemma Qle_bool_false_iff (a b : Q) : Qle_bool a b = false <-> b < a.
Proof.
  rewrite <- Qlt_bool_iff. unfold Qlt_bool.
  destruct (Qle_bool a b); simpl; split; congruence.
Qed.

Lemma Qle_bool_true (a b : Q) : a <= b -> Qle_bool a b = true.
Proof. apply Qle_bool_iff. Qed.

Lemma Qle_bool_false (a b : Q) : b < a -> Qle_bool a b = false.
Proof. apply Qle_bool_false_iff. Qed.

Lemma Qgt_bool_true (a b : Q) : b < a -> Qgt_bool a b = true.
Proof. apply Qgt_bool_iff. Qed.

Lemma Qgt_bool_false (a b : Q) : a <= b -> Qgt_bool a b = false.
Proof. unfold Qgt_bool. intro H. now rewrite (Qle_bool_true _ _ H). Qed.

(** ** The ledger: [SimpleBacktester.execute_trade] *)

Section LedgerProperties.
Import SimpleBacktester Ledger.

(** What [execute_trade] does on the buy branch, in the code's own terms. *)
Lemma execute_trade_buy (self : backtester) (p sh : Q) (ts : Z) :
  0 < sh ->
  let total_cost := Qabs (sh * p) + Qabs (sh * p) * commission self in
  execute_trade self p sh ts =
    if Qle_bool total_cost (capital self) then
      {| initial_capital := initial_capital self;
         commission := commission self;
         capital := capital self - total_cost;
         position := position self + sh;
         trades := trades self ++ [mk_trade ts BUY p sh (Some total_cost) None];
         equity_curve := equity_curve self |}
    else self.
Proof.
  intros Hsh. unfold execute_trade. now rewrite (Qgt_bool_true _ _ Hsh).
Qed.

(** ... and on the sell branch. *)
Lemma execute_trade_sell (self : backtester) (p sh : Q) (ts : Z) :
  sh <= 0 ->
  let proceeds := Qabs (sh * p) - Qabs (sh * p) * commission self in
  execute_trade self p sh ts =
    if Qle_bool (Qabs sh) (position self) then
      {| initial_capital := initial_capital self;
         commission := commission self;
         capital := capital self + proceeds;
         position := position self - Qabs sh;
         trades := trades self ++
                   [mk_trade ts SELL p (Qabs sh) None (Some proceeds)];
         equity_curve := equity_curve self |}
    else self.
Proof.
  intros Hsh. unfold execute_trade. now rewrite (Qgt_bool_false _ _ Hsh).
Qed.

Lemma app_singleton_neq {A : Type} (l : list A) (x : A) : l ++ [x] <> l.
Proof.
  intro H. apply (f_equal (@List.length A)) in H.
  rewrite length_app in H. simpl in H. lia.
Qed.

(** C5.  For an order of positive size at a non-negative price, the ledger
    rejects a buy (state unchanged) exactly when size*price*(1+commission)
    exceeds the cash, and otherwise subtracts exactly that amount, adds the
    size to the position and appends one BUY record carrying that cost; it
    rejects a sell exactly when the size exceeds the position, and otherwise
    adds size*price*(1-commission) to the cash, subtracts the size from the
    position and appends one SELL record carrying those proceeds. *)
Theorem execute_trade_accepts_or_rejects
  (self : backtester) (p size : Q) (ts : Z) :
  0 < size -> 0 <= p ->
  let total_cost := size * p * (1 + commission self) in
  let net := size * p * (1 - commission self) in
  let bought := execute_trade self p size ts in
  let sold := execute_trade self p (- size) ts in
  (capital self < total_cost <-> bought = self) /\
  (total_cost <= capital self ->
     capital bought == capital self - total_cost /\
     position bought == position self + size /\
     equity_curve bought = equity_curve self /\
     exists c, c == total_cost /\
       trades bought = trades self ++ [mk_trade ts BUY p size (Some c) None]) /\
  (position self < size <-> sold = self) /\
  (size <= position self ->
     capital sold == capital self + net /\
     position sold == position self - size /\
     equity_curve sold = equity_curve self /\
     exists n q, n == net /\ q == size /\
       trades sold = trades self ++ [mk_trade ts SELL p q None (Some n)]).
Proof.
  intros Hsize Hp total_cost net bought sold.
  assert (Hnotional : 0 <= size * p) by (apply Qmult_le_0_compat; lra).
  assert (Habs : Qabs (size * p) == size * p) by (now apply Qabs_pos).
  assert (Habs' : Qabs (- size * p) == size * p).
  { rewrite Qabs_neg by lra. ring. }
  assert (Hq : Qabs (- size) == size).
  { rewrite Qabs_neg by lra. ring. }
  assert (Hcost : Qabs (size * p) + Qabs (size * p) * commission self
                  == total_cost).
  { rewrite Habs. unfold total_cost. ring. }
  assert (Hnet : Qabs (- size * p) - Qabs (- size * p) * commission self
                 == net).
  { rewrite Habs'. unfold net. ring. }
  assert (Eb : Qle_bool (Qabs (size * p) + Qabs (size * p) * commission self)
                        (capital self)
               = Qle_bool total_cost (capital self)) by now rewrite Hcost.
  assert (Es : Qle_bool (Qabs (- size)) (position self)
               = Qle_bool size (position self)) by now rewrite Hq.
  subst bought sold.
  rewrite (execute_trade_buy self p size ts Hsize).
  rewrite (execute_trade_sell self p (- size) ts) by lra.
  cbv zeta. rewrite Eb, Es. clear Eb Es.
  split; [ | split; [ | split ] ].
  - destruct (Qle_bool total_cost (capital self)) eqn:E.
    + apply Qle_bool_iff in E. split; [intro; lra | ].
      intro H. apply (f_equal trades) in H. simpl in H.
      now apply app_singleton_neq in H.
    + apply Qle_bool_false_iff in E. tauto.
  - intro H. rewrite (Qle_bool_true _ _ H). simpl.
    repeat split; try reflexivity.
    + now rewrite Hcost.
    + eexists. split; [exact Hcost | reflexivity].
  - destruct (Qle_bool size (position self)) eqn:E.
    + apply Qle_bool_iff in E. split; [intro; lra | ].
      intro H. apply (f_equal trades) in H. simpl in H.
      now apply app_singleton_neq in H.
    + apply Qle_bool_false_iff in E. tauto.
  - intro H. rewrite (Qle_bool_true _ _ H). simpl.
    repeat split; try reflexivity.
    + now rewrite Hnet.
    + now rewrite Hq.
    + eexists. eexists. split; [exact Hnet | split; [exact Hq | reflexivity]].
Qed.

(** Buying 250 at 20 from a fresh ledger of 10000 costs 5005; selling them
    at 29 brings 7242.75. *)
Lemma execute_trade_accepts_or_rejects_witness :
  capital (execute_trade (init 10000 (1 # 1000)) 20 250 2) == 4995 /\
  capital (execute_trade (execute_trade (init 10000 (1 # 1000)) 20 250 2)
                         29 (- (250)) 4) == 4995 + 7242.75.
Proof.
  split.
  - destruct (execute_trade_accepts_or_rejects (init 10000 (1 # 1000)) 20 250 2)
      as [_ [H _]]; [reflexivity | discriminate | ].
    destruct H as [H _]; [simpl; discriminate | ].
    rewrite H. reflexivity.
  - destruct (execute_trade_accepts_or_rejects
                (execute_trade (init 10000 (1 # 1000)) 20 250 2) 29 250 4)
      as [_ [_ [_ H]]]; [reflexivity | discriminate | ].
    destruct H as [H _]; [vm_compute; discriminate | ].
    rewrite H. vm_compute. reflexivity.
Defined.

(** *** Solvency and inventory *)

Lemma execute_trade_commission (self : backtester) (p sh : Q) (ts : Z) :
  commission (execute_trade self p sh ts) = commission self.
Proof.
  unfold execute_trade.
  destruct (Qgt_bool sh 0); [destruct (Qle_bool _ (capital self)) |
                             destruct (Qle_bool _ (position self))];
    reflexivity.
Qed.

Lemma execute_trade_capital_nonneg (self : backtester) (p sh : Q) (ts : Z) :
  commission self <= 1 -> 0 <= capital self ->
  0 <= capital (execute_trade self p sh ts).
Proof.
  intros Hc Hcap. unfold execute_trade.
  pose proof (Qabs_nonneg (sh * p)) as Hn.
  destruct (Qgt_bool sh 0).
  - destruct (Qle_bool _ (capital self)) eqn:E; [ | exact Hcap].
    apply Qle_bool_iff in E. cbn [capital position]. lra.
  - destruct (Qle_bool _ (position self)); [ | exact Hcap].
    cbn [capital position]. nra.
Qed.

Lemma execute_trade_position_nonneg (self : backtester) (p sh : Q) (ts : Z) :
  0 <= position self -> 0 <= position (execute_trade self p sh ts).
Proof.
  intros Hpos. unfold execute_trade.
  destruct (Qgt_bool sh 0) eqn:B.
  - apply Qgt_bool_iff in B.
    destruct (Qle_bool _ (capital self)); [ | exact Hpos].
    cbn [capital position]. lra.
  - destruct (Qle_bool _ (position self)) eqn:E; [ | exact Hpos].
    apply Qle_bool_iff in E. cbn [capital position]. lra.
Qed.

Lemma reachable_commission (s0 s : backtester) :
  reachable s0 s -> commission s = commission s0.
Proof.
  induction 1 as [ | s p sh ts _ IH | s pt _ IH ].
  - reflexivity.
  - now rewrite execute_trade_commission.
  - exact IH.
Qed.

Lemma reachable_capital_nonneg (s0 s : backtester) :
  commission s0 <= 1 -> 0 <= capital s0 ->
  reachable s0 s -> 0 <= capital s.
Proof.
  intros Hc H0 R. induction R as [ | s p sh ts R IH | s pt _ IH ].
  - exact H0.
  - apply execute_trade_capital_nonneg; [ | exact IH].
    now rewrite (reachable_commission _ _ R).
  - exact IH.
Qed.

Lemma reachable_position_nonneg (s0 s : backtester) :
  0 <= position s0 -> reachable s0 s -> 0 <= position s.
Proof.
  intros H0 R. induction R as [ | s p sh ts _ IH | s pt _ IH ].
  - exact H0.
  - now apply execute_trade_position_nonneg.
  - exact IH.
Qed.

Lemma reachable_trans (s0 s1 s2 : backtester) :
  reachable s0 s1 -> reachable s1 s2 -> reachable s0 s2.
Proof.
  intros R1 R2. induction R2; [exact R1 | now constructor | now constructor].
Qed.

(** One bar of the driver is at most one [execute_trade] followed by one
    equity recording. *)
Lemma on_row_reachable (s : backtester) (r : row) : reachable s (on_row s r).
Proof.
  unfold on_row. apply reachable_equity.
  destruct (row_position r) as [p | ]; [ | constructor].
  destruct (0 <? p)%Z.
  - destruct (Qgt_bool _ 0); constructor. constructor.
  - destruct (p <? 0)%Z; [ | constructor].
    destruct (Qgt_bool _ 0); constructor. constructor.
Qed.

Lemma run_loop_reachable (rows : list row) (s : backtester) :
  reachable s (run_loop s rows).
Proof.
  revert s. induction rows as [ | r rows IH]; intro s; simpl.
  - constructor.
  - eapply reachable_trans; [apply on_row_reachable | apply IH].
Qed.

(** Each call either does not lower the cash (a sell, whose proceeds are
    non-negative at a rate of at most 1, or a rejection) or is a buy whose
    cost with commission was within the cash. *)
Lemma execute_trade_cash_step (self : backtester) (p sh : Q) (ts : Z) :
  commission self <= 1 ->
  capital self <= capital (execute_trade self p sh ts) \/
  (Qabs (sh * p) * (1 + commission self) <= capital self /\
   capital (execute_trade self p sh ts)
   == capital self - Qabs (sh * p) * (1 + commission self)).
Proof.
  intro Hc. pose proof (Qabs_nonneg (sh * p)) as Hn.
  unfold execute_trade. destruct (Qgt_bool sh 0).
  - destruct (Qle_bool _ (capital self)) eqn:E; [right | left; apply Qle_refl].
    apply Qle_bool_iff in E. cbn [capital]. split; [lra | ring].
  - left. destruct (Qle_bool _ (position self)); [ | apply Qle_refl].
    cbn [capital]. nra.
Qed.

(** C3.  Starting from a non-negative initial capital, the cash is
    non-negative after every bar.  This holds in every state a ledger with a
    commission rate of at most 1 can reach and after every bar of its loop,
    whatever the rows and their closes are; in particular for the ledger the
    backtest constructs (rate 0.001) on the rows of any frame.  Every call
    either does not lower the cash (a sell only adds non-negative proceeds,
    a rejection changes nothing) or is a buy whose total cost, commission
    included, did not exceed the cash. *)
Theorem cash_never_negative
  (ic c : Q) (s : backtester) (rows : list row) (k : nat)
  (data : list bar) (fast_period slow_period : nat) (p sh : Q) (ts : Z) :
  0 <= ic -> c <= 1 -> reachable (init ic c) s ->
  0 <= capital s /\
  0 <= capital (run_loop (init ic c) (firstn k rows)) /\
  0 <= capital (run_loop (init ic (1 # 1000))
                         (firstn k (add_columns data fast_period slow_period))) /\
  (capital s <= capital (execute_trade s p sh ts) \/
   (Qabs (sh * p) * (1 + c) <= capital s /\
    capital (execute_trade s p sh ts)
    == capital s - Qabs (sh * p) * (1 + c))).
Proof.
  intros Hic Hc R. split; [ | split; [ | split]].
  - now apply (reachable_capital_nonneg (init ic c)).
  - apply (reachable_capital_nonneg (init ic c)); try assumption.
    apply run_loop_reachable.
  - apply (reachable_capital_nonneg (init ic (1 # 1000)));
      [discriminate | exact Hic | apply run_loop_reachable].
  - pose proof (reachable_commission _ _ R) as Ec. cbn [init commission] in Ec.
    rewrite <- Ec. apply execute_trade_cash_step. now rewrite Ec.
Qed.

Lemma cash_never_negative_witness :
  0 <= capital (execute_trade (init 10000 (1 # 1000)) 20 250 2) /\
  0 <= capital (run_loop (init 10000 (1 # 1000)) (firstn 1 overcharged_rows)) /\
  0 <= capital (run_loop (init 10000 (1 # 1000))
                         (firstn 5 (add_columns Analytics.profitable_round_trip
                                                1 2))).
Proof.
  destruct (cash_never_negative 10000 (1 # 1000)
              (execute_trade (init 10000 (1 # 1000)) 20 250 2)
              overcharged_rows 1 Analytics.profitable_round_trip 1 2 29 0 4)
    as (H1 & H2 & H3 & _).
  - discriminate.
  - discriminate.
  - apply reachable_trade, reachable_start.
  - split; [exact H1 | split; [exact H2 | ]].
    destruct (cash_never_negative 10000 (1 # 1000)
                (init 10000 (1 # 1000))
                overcharged_rows 5 Analytics.profitable_round_trip 1 2 29 0 4)
      as (_ & _ & H3' & _).
    + discriminate.
    + discriminate.
    + apply reachable_start.
    + exact H3'.
Defined.

(** The bound on the rate cannot be dropped from the first two parts: a
    ledger built with a rate of 2 (no run of the backtest builds one), from
    a capital of 10 and closes 3 and 100, buys one share for 9 and its sale
    "adds" 100 - 200, leaving a cash balance of -99. *)
Lemma cash_negative_above_full_commission :
  0 <= 10 /\
  (forall r, In r overcharged_rows -> 0 < row_close r) /\
  capital (run_loop (init 10 2) overcharged_rows) == - (99) /\
  capital (run_loop (init 10 2) overcharged_rows) < 0.
Proof.
  split; [discriminate | split; [ | split; reflexivity]].
  intros r [<- | [<- | []]]; reflexivity.
Qed.

End LedgerProperties.

(** ** Analytics: drawdown and win rate *)

Section AnalyticsProperties.
Import SimpleBacktester Ledger Analytics.

Lemma fold_max_spec (l : list Q) (x : Q) :
  x <= fold_left Qmax l x /\
  (forall y, In y l -> y <= fold_left Qmax l x) /\
  (fold_left Qmax l x == x \/ exists y, In y l /\ fold_left Qmax l x == y).
Proof.
  revert x. induction l as [ | a l IH]; intro x; simpl.
  - split; [apply Qle_refl | ]. split; [intros y [] | ]. now left.
  - destruct (IH (Qmax x a)) as (H1 & H2 & H3).
    pose proof (Q.le_max_l x a) as Hl. pose proof (Q.le_max_r x a) as Hr.
    split; [eapply Qle_trans; eassumption | ]. split.
    + intros y [<- | Hy]; [eapply Qle_trans; eassumption | auto].
    + destruct H3 as [H3 | (y & Hy & E)].
      * destruct (Q.max_spec x a) as [[_ E] | [_ E]].
        -- right. exists a. split; [now left | ].
           eapply Qeq_trans; eassumption.
        -- left. eapply Qeq_trans; eassumption.
      * right. exists y. auto.
Qed.

Lemma fold_min_spec (l : list Q) (x : Q) :
  fold_left Qmin l x <= x /\
  (forall y, In y l -> fold_left Qmin l x <= y) /\
  (fold_left Qmin l x == x \/ exists y, In y l /\ fold_left Qmin l x == y).
Proof.
  revert x. induction l as [ | a l IH]; intro x; simpl.
  - split; [apply Qle_refl | ]. split; [intros y [] | ]. now left.
  - destruct (IH (Qmin x a)) as (H1 & H2 & H3).
    pose proof (Q.le_min_l x a) as Hl. pose proof (Q.le_min_r x a) as Hr.
    split; [eapply Qle_trans; eassumption | ]. split.
    + intros y [<- | Hy]; [eapply Qle_trans; eassumption | auto].
    + destruct H3 as [H3 | (y & Hy & E)].
      * destruct (Q.min_spec x a) as [[_ E] | [_ E]].
        -- left. eapply Qeq_trans; eassumption.
        -- right. exists a. split; [now left | ].
           eapply Qeq_trans; eassumption.
      * right. exists y. auto.
Qed.

Lemma length_expanding_max_from (xs : list Q) (m : Q) :
  List.length (expanding_max_from m xs) = List.length xs.
Proof.
  revert m. induction xs as [ | x xs IH]; intro m; simpl; [ | rewrite IH];
    reflexivity.
Qed.

Lemma length_expanding_max (xs : list Q) :
  List.length (expanding_max xs) = List.length xs.
Proof.
  destruct xs; simpl; [ | rewrite length_expanding_max_from]; reflexivity.
Qed.

Lemma nth_expanding_max_from (xs : list Q) (m : Q) (i : nat) :
  (i < List.length xs)%nat ->
  nth i (expanding_max_from m xs) 0 = fold_left Qmax (firstn (S i) xs) m.
Proof.
  revert m i. induction xs as [ | x xs IH]; intros m i Hi; simpl in Hi.
  - lia.
  - destruct i as [ | i].
    + destruct xs; reflexivity.
    + rewrite firstn_cons. simpl. apply IH. lia.
Qed.

(** The incremental maximum of the code is the maximum of the prefix. *)
Lemma nth_expanding_max (equity : list Q) (i : nat) :
  (i < List.length equity)%nat ->
  nth i (expanding_max equity) 0 = running_max equity i.
Proof.
  unfold running_max. destruct equity as [ | x rest]; simpl; [lia | ].
  intro Hi. destruct i as [ | i]; [reflexivity | ].
  apply nth_expanding_max_from. lia.
Qed.

Lemma nth_drawdown (equity : list Q) (i : nat) :
  (i < List.length equity)%nat ->
  nth i (drawdown equity) 0 = drawdown_at equity i.
Proof.
  intro Hi. unfold drawdown, drawdown_at.
  set (f := fun vm : Q * Q => (fst vm - snd vm) / snd vm).
  rewrite (nth_indep _ 0 (f (0, 0))).
  - rewrite map_nth, combine_nth by (now rewrite length_expanding_max).
    subst f. cbv beta. cbn [fst snd]. now rewrite nth_expanding_max.
  - rewrite length_map, length_combine, length_expanding_max. lia.
Qed.

Lemma length_drawdown (equity : list Q) :
  List.length (drawdown equity) = List.length equity.
Proof.
  unfold drawdown.
  rewrite length_map, length_combine, length_expanding_max. lia.
Qed.

(** [running_max] is an upper bound of the prefix and is attained in it. *)
Lemma running_max_is_maximum (equity : list Q) (i : nat) :
  (i < List.length equity)%nat ->
  (forall j, (j <= i)%nat -> nth j equity 0 <= running_max equity i) /\
  (exists j, (j <= i)%nat /\ running_max equity i == nth j equity 0).
Proof.
  intro Hi. unfold running_max.
  destruct equity as [ | x rest]; [simpl in Hi; lia | ].
  rewrite firstn_cons.
  destruct (fold_max_spec (firstn i rest) x) as (H1 & H2 & H3).
  assert (Hnth : forall j, (j < i)%nat ->
                   nth j (firstn i rest) 0 = nth j rest 0).
  { intros j Hj. rewrite nth_firstn.
    destruct (Nat.ltb_spec j i); [reflexivity | lia]. }
  assert (Hlen : List.length (firstn i rest) = i).
  { rewrite length_firstn. simpl in Hi. lia. }
  split.
  - intros [ | j] Hj; [exact H1 | ]. simpl.
    rewrite <- Hnth by lia. apply H2, nth_In. lia.
  - destruct H3 as [E | (y & Hy & E)].
    + exists 0%nat. split; [lia | exact E].
    + destruct (In_nth _ _ 0 Hy) as (j & Hj & <-).
      exists (S j). split; [lia | ]. simpl.
      rewrite <- Hnth by lia. exact E.
Qed.

Lemma drawdown_at_nonpos (equity : list Q) (i : nat) :
  (forall v, In v equity -> 0 < v) ->
  (i < List.length equity)%nat ->
  0 < running_max equity i /\ drawdown_at equity i <= 0.
Proof.
  intros Hpos Hi.
  destruct (running_max_is_maximum equity i Hi) as [Hub (j & Hj & E)].
  assert (Hrm : 0 < running_max equity i).
  { rewrite E. apply Hpos, nth_In. lia. }
  split; [exact Hrm | ].
  unfold drawdown_at. apply Qle_shift_div_r; [exact Hrm | ].
  specialize (Hub i (Nat.le_refl i)). lra.
Qed.

Lemma drawdown_at_non_decreasing (equity : list Q) (i : nat) :
  non_decreasing equity ->
  (i < List.length equity)%nat ->
  drawdown_at equity i == 0.
Proof.
  intros Hmono Hi.
  destruct (running_max_is_maximum equity i Hi) as [Hub (j & Hj & E)].
  assert (Hle : running_max equity i <= nth i equity 0).
  { rewrite E. apply Hmono. lia. }
  specialize (Hub i (Nat.le_refl i)).
  assert (Hz : nth i equity 0 - running_max equity i == 0) by lra.
  unfold drawdown_at. rewrite Hz. unfold Qdiv. ring.
Qed.

(** C7.  On a non-empty series of positive equity values the code's
    max_drawdown is the minimum over i of
    (equity[i] - running_max(0..i)) / running_max(0..i); it is at most 0,
    and it is 0 when the series never decreases. *)
Theorem max_drawdown_is_min_nonpositive (equity : list Q) :
  equity <> [] ->
  (forall v, In v equity -> 0 < v) ->
  exists m,
    max_drawdown equity = Some m /\
    is_min_over (List.length equity) (drawdown_at equity) m /\
    m <= 0 /\
    (non_decreasing equity -> m == 0).
Proof.
  intros Hne Hpos. unfold max_drawdown, series_min.
  pose proof (length_drawdown equity) as Hlen.
  pose proof (nth_drawdown equity) as Hnth.
  destruct (drawdown equity) as [ | d ds] eqn:Edd.
  { destruct equity; [congruence | discriminate]. }
  simpl in Hlen.
  exists (fold_left Qmin ds d). split; [reflexivity | ].
  destruct (fold_min_spec ds d) as (H1 & H2 & H3).
  assert (Hmin : is_min_over (List.length equity) (drawdown_at equity)
                             (fold_left Qmin ds d)).
  { split.
    - destruct H3 as [E | (y & Hy & E)].
      + exists 0%nat. split; [lia | ]. rewrite <- Hnth by lia. exact E.
      + destruct (In_nth _ _ 0 Hy) as (j & Hj & Ej).
        exists (S j). split; [lia | ].
        rewrite <- Hnth by lia. simpl. now rewrite Ej.
    - intros i Hi. rewrite <- Hnth by exact Hi.
      destruct i as [ | i]; [exact H1 | ]. simpl.
      apply H2, nth_In. lia. }
  split; [exact Hmin | ].
  destruct Hmin as [(i & Hi & E) Hlb]. split.
  - rewrite E. now apply drawdown_at_nonpos.
  - intro Hmono. rewrite E. now apply drawdown_at_non_decreasing.
Qed.

Lemma max_drawdown_is_min_nonpositive_witness :
  (exists m,
     max_drawdown [100; 90; 120] = Some m /\
     is_min_over 3 (drawdown_at [100; 90; 120]) m /\ m <= 0) /\
  (exists m, max_drawdown [100; 100; 120] = Some m /\ m == 0).
Proof.
  split.
  - destruct (max_drawdown_is_min_nonpositive [100; 90; 120])
      as (m & E & Hmin & Hle & _).
    + discriminate.
    + intros v [<- | [<- | [<- | []]]]; reflexivity.
    + exists m. auto.
  - destruct (max_drawdown_is_min_nonpositive [100; 100; 120])
      as (m & E & _ & _ & Hz).
    + discriminate.
    + intros v [<- | [<- | [<- | []]]]; reflexivity.
    + exists m. split; [exact E | ]. apply Hz.
      intros i j [Hij Hj]. simpl in Hj.
      destruct i as [ | [ | [ | i]]]; destruct j as [ | [ | [ | j]]];
        try lia; simpl; discriminate.
Defined.

(** *** Win rate *)

Lemma execute_trade_sells_without_cost (s : backtester) (p sh : Q) (ts : Z) :
  Forall sell_without_cost (trades s) ->
  Forall sell_without_cost (trades (execute_trade s p sh ts)).
Proof.
  intro H. unfold execute_trade.
  destruct (Qgt_bool sh 0).
  - destruct (Qle_bool _ (capital s)); [ | exact H].
    cbn [trades]. apply Forall_app. split; [exact H | ].
    constructor; [ | constructor]. intro E. discriminate E.
  - destruct (Qle_bool _ (position s)); [ | exact H].
    cbn [trades]. apply Forall_app. split; [exact H | ].
    constructor; [ | constructor]. intros _. reflexivity.
Qed.

Lemma reachable_sells_without_cost (s0 s : backtester) :
  Forall sell_without_cost (trades s0) ->
  reachable s0 s -> Forall sell_without_cost (trades s).
Proof.
  intros H0 R. induction R as [ | s p sh ts _ IH | s pt _ IH ].
  - exact H0.
  - now apply execute_trade_sells_without_cost.
  - exact IH.
Qed.

Lemma winning_trades_zero (ts : list trade) :
  Forall sell_without_cost ts -> winning_trades ts = 0%nat.
Proof.
  unfold winning_trades. induction 1 as [ | t ts Ht _ IH]; [reflexivity | ].
  cbn [filter].
  replace (is_sell t && gt_xfloat (get (proceeds t) 0)
                                  (get (option_map Fin (cost t)) PosInf))
    with false; [exact IH | ].
  unfold is_sell. unfold sell_without_cost in Ht.
  destruct (type t); [reflexivity | ].
  rewrite (Ht eq_refl). reflexivity.
Qed.

(** The win rate computed from a ledger's own trade log is always 0: a SELL
    record has no ['cost'] key, so its proceeds are compared with
    [float('inf')]. *)
Lemma win_rate_of_ledger_is_zero (ic c : Q) (s : backtester) :
  reachable (init ic c) s -> win_rate (trades s) == 0.
Proof.
  intro R. unfold win_rate.
  rewrite winning_trades_zero
    by (apply (reachable_sells_without_cost (init ic c)); [constructor | exact R]).
  destruct (0 <? total_sell_trades (trades s))%nat; [ | reflexivity].
  unfold Qdiv. simpl. ring.
Qed.

Lemma win_rate_without_sells (ts : list trade) :
  total_sell_trades ts = 0%nat -> win_rate ts = 0.
Proof. intro H. unfold win_rate. now rewrite H. Qed.

(** C1.  With no SELL trade the win rate is 0, as the claim says; but on the
    round trip bought at 20 (cost 5005) and sold at 29 (proceeds 7242.75)
    the driver reports a win rate of 0 where the claim's quotient, one
    winning sell out of one, is 1. *)
Theorem win_rate_zero_on_profitable_round_trip :
  win_rate [] = 0 /\
  win_rate [mk_trade 2 BUY 20 250 (Some 5005) None] = 0 /\
  exists r paid got,
    run_sma_crossover_backtest profitable_round_trip 1 2 = Returned r /\
    res_trades r = [ mk_trade 2 BUY 20 250 (Some paid) None;
                     mk_trade 4 SELL 29 250 None (Some got) ] /\
    paid == 5005 /\ got == 7242.75 /\
    res_win_rate r == 0 /\
    spec_win_rate (res_trades r) == 1.
Proof.
  split; [reflexivity | split; [reflexivity | ]].
  eexists. eexists. eexists.
  split; [vm_compute; reflexivity | ].
  split; [vm_compute; reflexivity | ].
  repeat split; vm_compute; reflexivity.
Qed.

End AnalyticsProperties.

(** ** Strategies: orders, exits, configuration and metrics *)

Section StrategyProperties.
Import Orders MeanReversion.

(** C9.  [buy] adds the size to the position, [sell] subtracts it (the whole
    position when the size is omitted); the name, the capital, the trade
    list and the equity curve are those of the strategy before the call,
    whatever the size is. *)
Theorem buy_sell_change_position_only
  (self : BaseStrategy.strategy) (size : Q) (price : option Q) :
  BaseStrategy.position (BaseStrategy.buy self size price)
    = BaseStrategy.position self + size /\
  BaseStrategy.position (BaseStrategy.sell self (Some size) price)
    = BaseStrategy.position self - size /\
  BaseStrategy.position (BaseStrategy.sell self None price)
    = BaseStrategy.position self - BaseStrategy.position self /\
  BaseStrategy.position (BaseStrategy.sell self None price) == 0 /\
  same_books self (BaseStrategy.buy self size price) /\
  same_books self (BaseStrategy.sell self (Some size) price) /\
  same_books self (BaseStrategy.sell self None price).
Proof.
  unfold same_books. simpl. repeat split; try reflexivity. ring.
Qed.

(** *** Inventory at the strategy level *)

Lemma perform_position_nonneg (b : BaseStrategy.strategy) (c : call) :
  0 <= BaseStrategy.position b -> covered b c ->
  0 <= BaseStrategy.position (perform b c).
Proof.
  intros Hpos Hc. destruct c as [size price | [size | ] price]; simpl in *; lra.
Qed.

Lemma run_calls_position_nonneg (calls : list call) (b : BaseStrategy.strategy) :
  0 <= BaseStrategy.position b -> all_covered b calls ->
  0 <= BaseStrategy.position (fold_left perform calls b).
Proof.
  revert b. induction calls as [ | c calls IH]; intros b Hpos Hcov; simpl.
  - exact Hpos.
  - destruct Hcov as [Hc Hrest]. apply IH; [ | exact Hrest].
    now apply perform_position_nonneg.
Qed.

Lemma exit_long_position (self : MeanReversionStrategy.strategy) (c : Q) :
  MeanReversionStrategy.position (MeanReversionStrategy.exit_long self c) == 0 /\
  MeanReversionStrategy.current_capital (MeanReversionStrategy.exit_long self c)
    = MeanReversionStrategy.current_capital self.
Proof.
  unfold MeanReversionStrategy.exit_long, MeanReversionStrategy._record_trade.
  cbn [MeanReversionStrategy.entry_price MeanReversionStrategy.set_base].
  destruct (MeanReversionStrategy.entry_price self) as [e | ];
    [destruct (MeanReversionStrategy.truthy (Some e)) | ];
    unfold MeanReversionStrategy.position,
           MeanReversionStrategy.current_capital; simpl;
    (split; [ring | reflexivity]).
Qed.

Lemma on_data_position_nonneg (self : MeanReversionStrategy.strategy) (c : Q) :
  0 <= MeanReversionStrategy.position self ->
  0 <= MeanReversionStrategy.current_capital self ->
  0 <= MeanReversionStrategy.position (MeanReversionStrategy.on_data self c) /\
  0 <= MeanReversionStrategy.current_capital
         (MeanReversionStrategy.on_data self c).
Proof.
  intros Hpos Hcap. unfold MeanReversionStrategy.on_data.
  set (s1 := MeanReversionStrategy.append_price self c).
  assert (Hpos1 : 0 <= MeanReversionStrategy.position s1) by exact Hpos.
  assert (Hcap1 : 0 <= MeanReversionStrategy.current_capital s1) by exact Hcap.
  clearbody s1. clear self Hpos Hcap.
  destruct (_ <? _)%Z; [now split | ].
  destruct (Qeq_bool (MeanReversionStrategy.position s1) 0) eqn:Ez.
  - destruct (MeanReversionStrategy.rsi_lt _ _); [ | now split].
    apply Qeq_bool_iff in Ez.
    unfold MeanReversionStrategy.position,
           MeanReversionStrategy.current_capital in *.
    simpl. unfold BaseStrategy.calculate_position_size,
                  BaseStrategy.default_risk_per_trade.
    split; [ | exact Hcap1].
    assert (0 <= BaseStrategy.current_capital (MeanReversionStrategy.base s1)
                 * (2 # 100) / 100).
    { apply Qle_shift_div_l; [reflexivity | ]. lra. }
    lra.
  - destruct (Qgt_bool (MeanReversionStrategy.position s1) 0); [ | now split].
    destruct (MeanReversionStrategy.rsi_gt _ _);
      [ | destruct (MeanReversionStrategy.stop_loss_hit s1 c); [ | now split]];
      destruct (exit_long_position s1 c) as [E1 E2]; rewrite E1, E2;
      (split; [apply Qle_refl | exact Hcap1]).
Qed.

Lemma run_bars_position_nonneg
  (closes : list Q) (self : MeanReversionStrategy.strategy) :
  0 <= MeanReversionStrategy.position self ->
  0 <= MeanReversionStrategy.current_capital self ->
  0 <= MeanReversionStrategy.position
         (fold_left MeanReversionStrategy.on_data closes self).
Proof.
  revert self. induction closes as [ | c closes IH]; intros self Hpos Hcap.
  - exact Hpos.
  - simpl. destruct (on_data_position_nonneg self c Hpos Hcap).
    now apply IH.
Qed.

(** C4 (as amended).  The ledger's position is non-negative in every state
    [execute_trade] can reach from a fresh ledger, and after every bar of the
    driver.  [BaseStrategy.buy] and [sell] check nothing: there the position
    stays non-negative along a sequence of calls when every buy has a
    non-negative size and every sell omits the size or asks for at most the
    position held, as the calls made by [MeanReversionStrategy.on_data] do
    when the capital is non-negative. *)
Theorem position_never_negative
  (ic c : Q) (s : SimpleBacktester.backtester)
  (rows : list SimpleBacktester.row) (k : nat)
  (b : BaseStrategy.strategy) (calls : list call)
  (m : MeanReversionStrategy.strategy) (closes : list Q) :
  Ledger.reachable (SimpleBacktester.init ic c) s ->
  0 <= BaseStrategy.position b -> all_covered b calls ->
  0 <= MeanReversionStrategy.position m ->
  0 <= MeanReversionStrategy.current_capital m ->
  0 <= SimpleBacktester.position s /\
  0 <= SimpleBacktester.position
         (SimpleBacktester.run_loop (SimpleBacktester.init ic c)
                                    (firstn k rows)) /\
  0 <= BaseStrategy.position (fold_left perform calls b) /\
  0 <= MeanReversionStrategy.position
         (fold_left MeanReversionStrategy.on_data closes m).
Proof.
  intros R Hb Hcov Hm Hcap.
  split; [ | split; [ | split]].
  - apply (reachable_position_nonneg (SimpleBacktester.init ic c));
      [apply Qle_refl | exact R].
  - apply (reachable_position_nonneg (SimpleBacktester.init ic c));
      [apply Qle_refl | apply run_loop_reachable].
  - now apply run_calls_position_nonneg.
  - now apply run_bars_position_nonneg.
Qed.

Lemma position_never_negative_witness :
  0 <= SimpleBacktester.position
         (SimpleBacktester.execute_trade
            (SimpleBacktester.init 10000 (1 # 1000)) 20 250 2) /\
  0 <= SimpleBacktester.position
         (SimpleBacktester.run_loop (SimpleBacktester.init 10000 (1 # 1000))
                                    (firstn 2 [SimpleBacktester.mk_row 0 20 (Some 1%Z)])) /\
  0 <= BaseStrategy.position
         (fold_left perform [Buy 2 None; Sell (Some 1) None; Sell None None]
                    (BaseStrategy.init "s")) /\
  0 <= MeanReversionStrategy.position
         (fold_left MeanReversionStrategy.on_data [100; 90; 95]
                    one_step_strategy).
Proof.
  apply position_never_negative.
  - apply Ledger.reachable_trade, Ledger.reachable_start.
  - discriminate.
  - simpl. repeat split; discriminate.
  - discriminate.
  - discriminate.
Defined.

(** C4 as stated fails at the strategy level: one [sell(1)] on a fresh
    strategy leaves a position of -1. *)
Lemma strategy_position_negative_counterexample :
  BaseStrategy.position
    (fold_left perform [Sell (Some 1) None] (BaseStrategy.init "s")) == - (1) /\
  BaseStrategy.position
    (fold_left perform [Sell (Some 1) None] (BaseStrategy.init "s")) < 0.
Proof. split; reflexivity. Qed.

(** *** Exits of the mean-reversion strategy *)

(** Both exits run the same three statements.  The sale comes first, so the
    record is computed from a position that is already [position - position]. *)
Lemma exit_long_records (self : MeanReversionStrategy.strategy) (c e : Q) :
  MeanReversionStrategy.entry_price self = Some e -> ~ e == 0 ->
  MeanReversionStrategy.entry_price (MeanReversionStrategy.exit_long self c)
    = None /\
  exists pnl,
    pnl == 0 /\
    MeanReversionStrategy.trades (MeanReversionStrategy.exit_long self c)
    = MeanReversionStrategy.trades self ++
      [ BaseStrategy.Dict [ ("pnl"%string, pnl);
                            ("return"%string, (c - e) / e);
                            ("entry"%string, e);
                            ("exit"%string, c) ] ].
Proof.
  intros He Hnz.
  unfold MeanReversionStrategy.exit_long, MeanReversionStrategy._record_trade.
  cbn [MeanReversionStrategy.entry_price MeanReversionStrategy.set_base
       MeanReversionStrategy.set_entry_price].
  rewrite He. unfold MeanReversionStrategy.truthy.
  destruct (Qeq_bool e 0) eqn:E; [apply Qeq_bool_iff in E; contradiction | ].
  cbn [negb]. split; [reflexivity | ].
  eexists. split; [ | reflexivity].
  unfold MeanReversionStrategy.position. simpl. ring.
Qed.

(** C2.  On the take-profit exit of a position of 2 entered at 90 and closed
    at 95 the entry price is cleared and one record is appended, but its pnl
    is 0 and not (95 - 90) * 2 = 10: the position has been sold before the
    record is computed.  The stop-loss exit at 80 records a pnl of 0 just the
    same. *)
Theorem exit_pnl_ignores_size_sold :
  MeanReversionStrategy.position long_at_90 == 2 /\
  MeanReversionStrategy.entry_price long_at_90 = Some 90 /\
  MeanReversionStrategy.entry_price (MeanReversionStrategy.on_data long_at_90 95)
    = None /\
  MeanReversionStrategy.position (MeanReversionStrategy.on_data long_at_90 95)
    == 0 /\
  exists pnl,
    MeanReversionStrategy.trades (MeanReversionStrategy.on_data long_at_90 95)
    = [ BaseStrategy.Dict [ ("pnl"%string, pnl);
                            ("return"%string, (95 - 90) / 90);
                            ("entry"%string, 90);
                            ("exit"%string, 95) ] ] /\
    pnl == 0 /\
    (95 - 90) * MeanReversionStrategy.position long_at_90 == 10 /\
  exists pnl,
    MeanReversionStrategy.trades (MeanReversionStrategy.on_data long_at_90 80)
    = [ BaseStrategy.Dict [ ("pnl"%string, pnl);
                            ("return"%string, (80 - 90) / 90);
                            ("entry"%string, 90);
                            ("exit"%string, 80) ] ] /\
    pnl == 0 /\
    (80 - 90) * MeanReversionStrategy.position long_at_90 == - (20).
Proof.
  split; [vm_compute; reflexivity | ].
  split; [vm_compute; reflexivity | ].
  split; [vm_compute; reflexivity | ].
  split; [vm_compute; reflexivity | ].
  eexists. split; [vm_compute; reflexivity | ].
  split; [vm_compute; reflexivity | ].
  split; [vm_compute; reflexivity | ].
  eexists. split; [vm_compute; reflexivity | ].
  split; vm_compute; reflexivity.
Qed.

(** *** Configuration *)

Lemma exit_long_price_history (self : MeanReversionStrategy.strategy) (c : Q) :
  MeanReversionStrategy.price_history (MeanReversionStrategy.exit_long self c)
  = MeanReversionStrategy.price_history self.
Proof.
  unfold MeanReversionStrategy.exit_long, MeanReversionStrategy._record_trade.
  cbn [MeanReversionStrategy.entry_price MeanReversionStrategy.set_base].
  destruct (MeanReversionStrategy.entry_price self) as [e | ];
    [destruct (MeanReversionStrategy.truthy (Some e)) | ]; reflexivity.
Qed.

Lemma on_data_price_history (self : MeanReversionStrategy.strategy) (c : Q) :
  MeanReversionStrategy.price_history (MeanReversionStrategy.on_data self c)
  = MeanReversionStrategy.price_history self ++ [c].
Proof.
  unfold MeanReversionStrategy.on_data.
  set (s1 := MeanReversionStrategy.append_price self c).
  change (MeanReversionStrategy.price_history self ++ [c])
    with (MeanReversionStrategy.price_history s1).
  clearbody s1.
  destruct (_ <? _)%Z; [reflexivity | ].
  destruct (Qeq_bool _ 0).
  - destruct (MeanReversionStrategy.rsi_lt _ _); reflexivity.
  - destruct (Qgt_bool _ 0); [ | reflexivity].
    destruct (MeanReversionStrategy.rsi_gt _ _);
      [ | destruct (MeanReversionStrategy.stop_loss_hit _ _); [ | reflexivity]];
      apply exit_long_price_history.
Qed.

(** C8 (as amended).  The constructor checks nothing: for every period and
    every pair of thresholds it returns a strategy that holds them as given,
    flat, with no history, and that strategy takes bars.  (A stop-loss
    fraction is not among its options; the stop is fixed in [on_data].) *)
Theorem init_accepts_any_configuration
  (name : string) (rsi_period : Z) (rsi_oversold rsi_overbought : Q) :
  exists s,
    MeanReversionStrategy.init name rsi_period rsi_oversold rsi_overbought
    = Returned s /\
    MeanReversionStrategy.rsi_period s = rsi_period /\
    MeanReversionStrategy.rsi_oversold s = rsi_oversold /\
    MeanReversionStrategy.rsi_overbought s = rsi_overbought /\
    MeanReversionStrategy.price_history s = [] /\
    MeanReversionStrategy.entry_price s = None /\
    MeanReversionStrategy.position s = 0 /\
    MeanReversionStrategy.trades s = [] /\
    forall c,
      MeanReversionStrategy.price_history (MeanReversionStrategy.on_data s c)
      = [c].
Proof.
  eexists. split; [reflexivity | ].
  repeat split. intro c. now rewrite on_data_price_history.
Qed.

(** C8 as stated fails: a period of 0 with oversold 80 above overbought 20 is
    not a valid configuration, yet the constructor returns a strategy and
    that strategy processes a bar. *)
Lemma invalid_configuration_counterexample :
  ~ valid_config 0 80 20 /\
  exists s,
    MeanReversionStrategy.init MeanReversionStrategy.default_name 0 80 20
    = Returned s /\
    (forall e,
       MeanReversionStrategy.init MeanReversionStrategy.default_name 0 80 20
       <> Raised e) /\
    MeanReversionStrategy.price_history (MeanReversionStrategy.on_data s 50)
    = [50].
Proof.
  split.
  - intros [H _]. discriminate H.
  - eexists. split; [reflexivity | ]. split; [intros e H; discriminate H | ].
    reflexivity.
Qed.

(** *** Metrics *)

Lemma select_by_pnl_raises (test : Q -> bool) (ts : list BaseStrategy.trade_entry) :
  Exists is_dict ts ->
  BaseStrategy.select_by_pnl test ts = Raised AttributeError.
Proof.
  induction 1 as [t ts Ht | t ts _ IH]; simpl.
  - destruct t; [destruct Ht | reflexivity].
  - destruct t; [ | reflexivity]. simpl. now rewrite IH.
Qed.

Lemma get_metrics_raises (b : BaseStrategy.strategy) :
  Exists is_dict (BaseStrategy.trades b) ->
  BaseStrategy.get_metrics b = Raised AttributeError.
Proof.
  intro H. unfold BaseStrategy.get_metrics.
  destruct (BaseStrategy.trades b) as [ | t ts] eqn:E.
  - inversion H.
  - now rewrite (select_by_pnl_raises _ _ H).
Qed.

Lemma exit_long_trades (self : MeanReversionStrategy.strategy) (c : Q) :
  MeanReversionStrategy.trades (MeanReversionStrategy.exit_long self c)
  = MeanReversionStrategy.trades self \/
  exists d,
    MeanReversionStrategy.trades (MeanReversionStrategy.exit_long self c)
    = MeanReversionStrategy.trades self ++ [BaseStrategy.Dict d].
Proof.
  unfold MeanReversionStrategy.exit_long, MeanReversionStrategy._record_trade.
  cbn [MeanReversionStrategy.entry_price MeanReversionStrategy.set_base].
  destruct (MeanReversionStrategy.entry_price self) as [e | ];
    [destruct (MeanReversionStrategy.truthy (Some e)) | ];
    [right; eexists; reflexivity | now left | now left].
Qed.

Lemma on_data_trades (self : MeanReversionStrategy.strategy) (c : Q) :
  MeanReversionStrategy.trades (MeanReversionStrategy.on_data self c)
  = MeanReversionStrategy.trades self \/
  exists d,
    MeanReversionStrategy.trades (MeanReversionStrategy.on_data self c)
    = MeanReversionStrategy.trades self ++ [BaseStrategy.Dict d].
Proof.
  unfold MeanReversionStrategy.on_data.
  set (s1 := MeanReversionStrategy.append_price self c).
  change (MeanReversionStrategy.trades self)
    with (MeanReversionStrategy.trades s1).
  clearbody s1.
  destruct (_ <? _)%Z; [now left | ].
  destruct (Qeq_bool _ 0).
  - destruct (MeanReversionStrategy.rsi_lt _ _); now left.
  - destruct (Qgt_bool _ 0); [ | now left].
    destruct (MeanReversionStrategy.rsi_gt _ _);
      [ | destruct (MeanReversionStrategy.stop_loss_hit _ _); [ | now left]];
      apply exit_long_trades.
Qed.

Lemma reachable_trades_are_dicts (s0 s : MeanReversionStrategy.strategy) :
  Forall is_dict (MeanReversionStrategy.trades s0) ->
  reachable s0 s -> Forall is_dict (MeanReversionStrategy.trades s).
Proof.
  intros H0 R. induction R as [ | s amount _ IH | s c _ IH ].
  - exact H0.
  - exact IH.
  - destruct (on_data_trades s c) as [E | [d E]]; rewrite E; [exact IH | ].
    apply Forall_app. split; [exact IH | ]. repeat constructor.
Qed.

(** C10.  [get_metrics] returns the dict with the single entry
    total_trades = 0 when the trade list is empty; on a mean-reversion
    strategy that was constructed, funded and fed bars and has recorded at
    least one trade it raises AttributeError, the entries being dicts. *)
Theorem get_metrics_empty_or_raises
  (b : BaseStrategy.strategy)
  (name : string) (rsi_period : Z) (rsi_oversold rsi_overbought : Q)
  (s0 s : MeanReversionStrategy.strategy) :
  (BaseStrategy.trades b = [] ->
   BaseStrategy.get_metrics b = Returned [("total_trades"%string, 0)]) /\
  (MeanReversionStrategy.init name rsi_period rsi_oversold rsi_overbought
   = Returned s0 ->
   reachable s0 s ->
   MeanReversionStrategy.trades s <> [] ->
   BaseStrategy.get_metrics (MeanReversionStrategy.base s)
   = Raised AttributeError).
Proof.
  split.
  - intro E. unfold BaseStrategy.get_metrics. now rewrite E.
  - intros Hinit R Hne. injection Hinit as <-.
    apply get_metrics_raises.
    assert (Hall : Forall is_dict (MeanReversionStrategy.trades s)).
    { eapply reachable_trades_are_dicts; [ | exact R]. constructor. }
    unfold MeanReversionStrategy.trades in *.
    destruct (BaseStrategy.trades (MeanReversionStrategy.base s)) as [ | t ts];
      [congruence | ].
    apply Exists_cons_hd. now inversion Hall.
Qed.

Lemma get_metrics_empty_or_raises_witness :
  BaseStrategy.get_metrics (BaseStrategy.init "s")
  = Returned [("total_trades"%string, 0)] /\
  BaseStrategy.get_metrics
    (MeanReversionStrategy.base (MeanReversionStrategy.on_data long_at_90 95))
  = Raised AttributeError.
Proof.
  split.
  - apply (proj1 (get_metrics_empty_or_raises
                    (BaseStrategy.init "s") MeanReversionStrategy.default_name
                    1 30 70 one_step_strategy one_step_strategy)).
    reflexivity.
  - refine (proj2 (get_metrics_empty_or_raises
                     (BaseStrategy.init "s") MeanReversionStrategy.default_name
                     1 30 70 _ _) eq_refl _ _).
    + apply reachable_bar, reachable_bar, reachable_bar, reachable_funded,
        reachable_start.
    + vm_compute. discriminate.
Defined.

(** *** The relative strength index *)

Lemma fold_left_Qplus_ext {A : Type} (f g : A -> Q) (l : list A) (a b : Q) :
  (forall x, In x l -> f x == g x) -> a == b ->
  fold_left Qplus (map f l) a == fold_left Qplus (map g l) b.
Proof.
  revert a b. induction l as [ | x l IH]; intros a b Hfg Hab; simpl.
  - exact Hab.
  - apply IH.
    + intros y Hy. apply Hfg. now right.
    + rewrite Hab, (Hfg x) by now left. reflexivity.
Qed.

Lemma Qsum_map_ext {A : Type} (f g : A -> Q) (l : list A) :
  (forall x, In x l -> f x == g x) -> Qsum (map f l) == Qsum (map g l).
Proof.
  intro H. unfold Qsum. apply fold_left_Qplus_ext; [exact H | reflexivity].
Qed.

Lemma fold_left_Qplus_nonneg (l : list Q) (a : Q) :
  (forall x, In x l -> 0 <= x) -> 0 <= a -> 0 <= fold_left Qplus l a.
Proof.
  revert a. induction l as [ | x l IH]; intros a Hl Ha; simpl.
  - exact Ha.
  - apply IH.
    + intros y Hy. apply Hl. now right.
    + specialize (Hl x (or_introl eq_refl)). lra.
Qed.

Lemma average_over_nonneg (f : Q -> Q -> Q) (w : list Q) (period : nat) :
  (forall a b, 0 <= f a b) -> (1 <= period)%nat ->
  0 <= average_over f w period.
Proof.
  intros Hf Hp. unfold average_over.
  apply Qle_shift_div_l.
  - change 0 with (inject_Z 0). rewrite <- Zlt_Qlt. lia.
  - rewrite Qmult_0_l. apply fold_left_Qplus_nonneg; [ | apply Qle_refl].
    intros x Hx. apply in_map_iff in Hx. destruct Hx as (j & <- & _).
    apply Hf.
Qed.

Lemma np_diff_from_nth (l : list Q) (prev : Q) :
  MeanReversionStrategy.np_diff_from prev l
  = map (fun j => nth (S j) (prev :: l) 0 - nth j (prev :: l) 0)
        (seq 0 (List.length l)).
Proof.
  revert prev. induction l as [ | a l IH]; intro prev; [reflexivity | ].
  cbn [MeanReversionStrategy.np_diff_from List.length seq map].
  f_equal. rewrite IH, <- seq_shift, map_map. reflexivity.
Qed.

Lemma np_diff_nth (w : list Q) :
  MeanReversionStrategy.np_diff w
  = map (fun j => nth (S j) w 0 - nth j w 0) (seq 0 (List.length w - 1)).
Proof.
  destruct w as [ | a l]; [reflexivity | ].
  cbn [MeanReversionStrategy.np_diff List.length].
  rewrite Nat.sub_succ, Nat.sub_0_r. apply np_diff_from_nth.
Qed.

Lemma slice_from_window (history : list Q) (period : Z) :
  (1 <= period)%Z ->
  (period + 1 <= Z.of_nat (List.length history))%Z ->
  MeanReversionStrategy.slice_from history (- (period + 1))
  = window history (Z.to_nat period).
Proof.
  intros Hp Hn. unfold MeanReversionStrategy.slice_from, window.
  destruct (Z.ltb_spec (- (period + 1)) 0) as [_ | H]; [ | lia].
  f_equal. lia.
Qed.

Lemma length_window (history : list Q) (period : nat) :
  (S period <= List.length history)%nat ->
  List.length (window history period) = S period.
Proof. intro H. unfold window. rewrite length_skipn. lia. Qed.

Lemma gain_is_step_gain (prev cur : Q) :
  (if Qgt_bool (cur - prev) 0 then cur - prev else 0) == step_gain prev cur.
Proof.
  unfold step_gain. destruct (Qgt_bool (cur - prev) 0) eqn:E.
  - apply Qgt_bool_iff in E. symmetry. apply Q.max_l. lra.
  - unfold Qgt_bool in E. apply negb_false_iff, Qle_bool_iff in E.
    symmetry. apply Q.max_r. exact E.
Qed.

Lemma loss_is_step_loss (prev cur : Q) :
  (if Qlt_bool (cur - prev) 0 then - (cur - prev) else 0) == step_loss prev cur.
Proof.
  unfold step_loss. destruct (Qlt_bool (cur - prev) 0) eqn:E.
  - apply Qlt_bool_iff in E. rewrite Q.max_l by lra. ring.
  - apply Qlt_bool_false_iff in E. symmetry. apply Q.max_r. lra.
Qed.

Lemma step_gain_nonneg (prev cur : Q) : 0 <= step_gain prev cur.
Proof. apply Q.le_max_r. Qed.

Lemma step_loss_nonneg (prev cur : Q) : 0 <= step_loss prev cur.
Proof. apply Q.le_max_r. Qed.

Lemma np_mean_map_seq (f : nat -> Q) (period : nat) :
  (1 <= period)%nat ->
  MeanReversionStrategy.np_mean (map f (seq 0 period))
  = Some (Qsum (map f (seq 0 period)) / inject_Z (Z.of_nat period)).
Proof.
  intro Hp. unfold MeanReversionStrategy.np_mean, len.
  rewrite length_map, length_seq.
  destruct period as [ | period]; [lia | reflexivity].
Qed.

(** The value of [_calculate_rsi] once the history is long enough, with the
    two averages written as the spec words them. *)
Lemma calculate_rsi_averages (self : MeanReversionStrategy.strategy) :
  (1 <= MeanReversionStrategy.rsi_period self)%Z ->
  (MeanReversionStrategy.rsi_period self + 1
   <= Z.of_nat (List.length (MeanReversionStrategy.price_history self)))%Z ->
  exists g l,
    g == avg_gain (MeanReversionStrategy.price_history self)
                  (Z.to_nat (MeanReversionStrategy.rsi_period self)) /\
    l == avg_loss (MeanReversionStrategy.price_history self)
                  (Z.to_nat (MeanReversionStrategy.rsi_period self)) /\
    MeanReversionStrategy._calculate_rsi self
    = if Qeq_bool l 0 then Some 100 else Some (100 - 100 / (1 + g / l)).
Proof.
  intros Hp Hn. unfold MeanReversionStrategy._calculate_rsi.
  rewrite (slice_from_window _ _ Hp Hn).
  set (p := Z.to_nat (MeanReversionStrategy.rsi_period self)).
  set (w := window (MeanReversionStrategy.price_history self) p).
  assert (Hp' : (1 <= p)%nat) by (subst p; lia).
  assert (Hw : (List.length w - 1 = p)%nat).
  { subst w. rewrite length_window by (subst p; lia). lia. }
  rewrite np_diff_nth, Hw, !map_map, !np_mean_map_seq by exact Hp'.
  eexists. eexists. split; [ | split; [ | reflexivity]].
  - unfold avg_gain, average_over. fold w.
    apply Qdiv_comp; [ | reflexivity].
    apply Qsum_map_ext. intros j _. apply gain_is_step_gain.
  - unfold avg_loss, average_over. fold w.
    apply Qdiv_comp; [ | reflexivity].
    apply Qsum_map_ext. intros j _. apply loss_is_step_loss.
Qed.

(** C6.  With a period of at least 1 and at least period+1 closes,
    [_calculate_rsi] returns 100 - 100/(1 + avg_gain/avg_loss), the gains and
    losses of the period steps of the trailing period+1 closes each averaged
    over period; it returns exactly 100 when the average loss is 0, and the
    divisor 1 + avg_gain/avg_loss is never 0.  With fewer than period+1
    closes, the new one included, [on_data] only appends the close: the
    position, the trades, the capital and the entry price are untouched. *)
Theorem rsi_value_and_abstention
  (self : MeanReversionStrategy.strategy) (close_price : Q) :
  ((1 <= MeanReversionStrategy.rsi_period self)%Z ->
   (MeanReversionStrategy.rsi_period self + 1
    <= Z.of_nat (List.length (MeanReversionStrategy.price_history self)))%Z ->
   exists rsi,
     MeanReversionStrategy._calculate_rsi self = Some rsi /\
     (avg_loss (MeanReversionStrategy.price_history self)
               (Z.to_nat (MeanReversionStrategy.rsi_period self)) == 0 ->
      rsi = 100) /\
     (~ avg_loss (MeanReversionStrategy.price_history self)
                 (Z.to_nat (MeanReversionStrategy.rsi_period self)) == 0 ->
      ~ 1 + avg_gain (MeanReversionStrategy.price_history self)
                     (Z.to_nat (MeanReversionStrategy.rsi_period self))
            / avg_loss (MeanReversionStrategy.price_history self)
                       (Z.to_nat (MeanReversionStrategy.rsi_period self)) == 0 /\
      rsi == 100 - 100 /
               (1 + avg_gain (MeanReversionStrategy.price_history self)
                             (Z.to_nat (MeanReversionStrategy.rsi_period self))
                    / avg_loss (MeanReversionStrategy.price_history self)
                               (Z.to_nat (MeanReversionStrategy.rsi_period self))))) /\
  ((Z.of_nat (List.length (MeanReversionStrategy.price_history self)) + 1
    < MeanReversionStrategy.rsi_period self + 1)%Z ->
   MeanReversionStrategy.on_data self close_price
   = MeanReversionStrategy.append_price self close_price /\
   MeanReversionStrategy.base (MeanReversionStrategy.on_data self close_price)
   = MeanReversionStrategy.base self /\
   MeanReversionStrategy.entry_price
     (MeanReversionStrategy.on_data self close_price)
   = MeanReversionStrategy.entry_price self /\
   MeanReversionStrategy.price_history
     (MeanReversionStrategy.on_data self close_price)
   = MeanReversionStrategy.price_history self ++ [close_price]).
Proof.
  split.
  - intros Hp Hn.
    destruct (calculate_rsi_averages self Hp Hn) as (g & l & Hg & Hl & E).
    set (G := avg_gain _ _) in *. set (L := avg_loss _ _) in *.
    assert (HG : 0 <= G).
    { apply average_over_nonneg; [apply step_gain_nonneg | lia]. }
    assert (HL : 0 <= L).
    { apply average_over_nonneg; [apply step_loss_nonneg | lia]. }
    rewrite E. destruct (Qeq_bool l 0) eqn:Ez.
    + apply Qeq_bool_iff in Ez. exists 100.
      split; [reflexivity | ]. split; [reflexivity | ].
      intro Hnz. exfalso. apply Hnz. now rewrite <- Hl.
    + apply Qeq_bool_neq in Ez. eexists. split; [reflexivity | ]. split.
      * intro Hz. exfalso. apply Ez. now rewrite Hl.
      * intros _. split.
        -- assert (0 <= G / L).
           { unfold Qdiv. apply Qmult_le_0_compat;
               [exact HG | now apply Qinv_le_0_compat]. }
           intro H0. lra.
        -- now rewrite Hg, Hl.
  - intro Hshort. unfold MeanReversionStrategy.on_data.
    cbn [MeanReversionStrategy.price_history MeanReversionStrategy.append_price
         MeanReversionStrategy.rsi_period].
    rewrite length_app. cbn [List.length].
    destruct (Z.ltb_spec
                (Z.of_nat (List.length (MeanReversionStrategy.price_history self)
                           + 1))
                (MeanReversionStrategy.rsi_period self + 1)) as [_ | H];
      [ | lia].
    repeat split.
Qed.

Lemma rsi_value_and_abstention_witness :
  (exists rsi,
     MeanReversionStrategy._calculate_rsi long_at_90 = Some rsi /\ rsi == 0) /\
  MeanReversionStrategy.on_data one_step_strategy 100
  = MeanReversionStrategy.append_price one_step_strategy 100.
Proof.
  split.
  - destruct (proj1 (rsi_value_and_abstention long_at_90 0))
      as (rsi & E & _ & H); [vm_compute; discriminate | vm_compute; discriminate | ].
    exists rsi. split; [exact E | ].
    destruct H as [_ H]; [vm_compute; discriminate | ].
    rewrite H. vm_compute. reflexivity.
  - apply (proj2 (rsi_value_and_abstention one_step_strategy 100)).
    vm_compute. reflexivity.
Defined.

End StrategyProperties.

(** ** The ledger's books *)

Section LedgerBooks.
Import SimpleBacktester Ledger Books.

Lemma Qsum_snoc (l : list Q) (x : Q) : Qsum (l ++ [x]) = Qsum l + x.
Proof. unfold Qsum. now rewrite fold_left_app. Qed.

(** [execute_trade] either leaves the ledger as it is or appends exactly one
    record, moving cash and position by what the record says. *)
Lemma execute_trade_cases (s : backtester) (p sh : Q) (ts : Z) :
  execute_trade s p sh ts = s \/
  exists t,
    trades (execute_trade s p sh ts) = trades s ++ [t] /\
    equity_curve (execute_trade s p sh ts) = equity_curve s /\
    timestamp t = ts /\ price t = p /\
    recomputed (commission s) t /\
    position (execute_trade s p sh ts) == position s + shares_delta t /\
    capital (execute_trade s p sh ts) == capital s + cash_delta t /\
    Qabs (shares t * p) == Qabs (sh * p).
Proof.
  unfold execute_trade. destruct (Qgt_bool sh 0) eqn:B.
  - apply Qgt_bool_iff in B.
    destruct (Qle_bool _ (capital s)); [right | now left].
    eexists. split; [reflexivity | ]. split; [reflexivity | ].
    split; [reflexivity | ]. split; [reflexivity | ].
    unfold recomputed, shares_delta, cash_delta.
    cbn [type shares price cost proceeds get trades position capital].
    repeat split; try reflexivity; try lra.
    eexists. split; [reflexivity | ]. ring.
  - unfold Qgt_bool in B. apply negb_false_iff, Qle_bool_iff in B.
    destruct (Qle_bool _ (position s)); [right | now left].
    assert (Habs : Qabs (Qabs sh * p) == Qabs (sh * p)).
    { rewrite !Qabs_Qmult, (Qabs_pos (Qabs sh)) by apply Qabs_nonneg.
      reflexivity. }
    eexists. split; [reflexivity | ]. split; [reflexivity | ].
    split; [reflexivity | ]. split; [reflexivity | ].
    unfold recomputed, shares_delta, cash_delta.
    cbn [type shares price cost proceeds get trades position capital].
    repeat split; try reflexivity; try apply Qabs_nonneg; try exact Habs.
    eexists. split; [reflexivity | ]. rewrite Habs. ring.
Qed.

Lemma reachable_recomputed (s0 s : backtester) :
  Forall (recomputed (commission s0)) (trades s0) ->
  reachable s0 s -> Forall (recomputed (commission s0)) (trades s).
Proof.
  intros H0 R. induction R as [ | s p sh ts R IH | s pt _ IH ].
  - exact H0.
  - destruct (execute_trade_cases s p sh ts) as [E | (t & Et & _ & _ & _ & Hr & _)].
    + now rewrite E.
    + rewrite Et. apply Forall_app. split; [exact IH | ].
      constructor; [ | constructor].
      now rewrite <- (reachable_commission _ _ R).
  - exact IH.
Qed.

(** Every record of the trade log can be recomputed from its own price and
    size and the ledger's commission rate: cost = |size * price| * (1 + rate)
    on a BUY, proceeds = |size * price| * (1 - rate) on a SELL, and the
    recorded size is never negative. *)
Theorem trade_amounts_recomputed (ic c : Q) (s : backtester) :
  reachable (init ic c) s -> Forall (recomputed c) (trades s).
Proof.
  intro R. apply (reachable_recomputed (init ic c)); [constructor | exact R].
Qed.

Lemma trade_amounts_recomputed_witness :
  Forall (recomputed (1 # 1000))
         (trades (execute_trade (execute_trade (init 10000 (1 # 1000)) 20 250 2)
                                29 (- (250)) 4)).
Proof.
  apply trade_amounts_recomputed with (ic := 10000).
  apply reachable_trade, reachable_trade, reachable_start.
Defined.

Lemma reachable_books (s0 s : backtester) :
  reachable s0 s ->
  exists log,
    trades s = trades s0 ++ log /\
    position s == position s0 + Qsum (map shares_delta log) /\
    capital s == capital s0 + Qsum (map cash_delta log).
Proof.
  induction 1 as [ | s p sh ts _ (log & El & Ep & Ec) | s pt _ IH ].
  - exists []. rewrite app_nil_r. unfold Qsum. simpl.
    repeat split; try reflexivity; ring.
  - destruct (execute_trade_cases s p sh ts)
      as [E | (t & Et & _ & _ & _ & _ & Hp & Hc & _)].
    + rewrite E. now exists log.
    + exists (log ++ [t]). rewrite Et, El, app_assoc.
      split; [reflexivity | ].
      rewrite !map_app. cbn [map]. rewrite !Qsum_snoc, Hp, Hc, Ep, Ec.
      split; ring.
  - exact IH.
Qed.

(** The account reconciles with the trade log: the position is the sum of
    the sizes bought minus the sizes sold, and the cash is the initial
    capital minus the recorded costs plus the recorded proceeds. *)
Theorem account_reconciles_with_trades (ic c : Q) (s : backtester) :
  reachable (init ic c) s ->
  position s == Qsum (map shares_delta (trades s)) /\
  capital s == ic + Qsum (map cash_delta (trades s)).
Proof.
  intro R. destruct (reachable_books _ _ R) as (log & El & Ep & Ec).
  rewrite El. cbn [init trades app] in *. cbn [init position capital] in Ep, Ec.
  rewrite Ep, Ec. split; ring.
Qed.

Lemma account_reconciles_with_trades_witness :
  position (execute_trade (init 10000 (1 # 1000)) 20 250 2)
  == Qsum (map shares_delta
               (trades (execute_trade (init 10000 (1 # 1000)) 20 250 2))) /\
  capital (execute_trade (init 10000 (1 # 1000)) 20 250 2)
  == 10000 + Qsum (map cash_delta
                       (trades (execute_trade (init 10000 (1 # 1000)) 20 250 2))).
Proof.
  apply account_reconciles_with_trades with (c := 1 # 1000).
  apply reachable_trade, reachable_start.
Defined.

Lemma track_equity_cases (s : backtester) (pt : equity_point) :
  trades (track_equity s pt) = trades s /\
  equity_curve (track_equity s pt) = equity_curve s ++ [pt].
Proof. split; reflexivity. Qed.

(** Both logs are append-only: whatever calls follow, the trade log and the
    equity curve of the earlier state are prefixes of the later ones, and the
    initial capital and the commission rate never change. *)
Theorem logs_are_append_only (s0 s : backtester) :
  reachable s0 s ->
  (exists more, trades s = trades s0 ++ more) /\
  (exists more, equity_curve s = equity_curve s0 ++ more) /\
  initial_capital s = initial_capital s0 /\
  commission s = commission s0.
Proof.
  induction 1 as [ | s p sh ts _ IH | s pt _ IH ].
  - repeat split; try (exists []; now rewrite app_nil_r).
  - destruct IH as ((m1 & E1) & (m2 & E2) & E3 & E4).
    rewrite execute_trade_commission.
    assert (Ei : initial_capital (execute_trade s p sh ts) = initial_capital s).
    { unfold execute_trade.
      destruct (Qgt_bool sh 0);
        [destruct (Qle_bool _ (capital s)) | destruct (Qle_bool _ (position s))];
        reflexivity. }
    rewrite Ei.
    destruct (execute_trade_cases s p sh ts) as [E | (t & Et & Ee & _)].
    + rewrite E. repeat split; eauto.
    + rewrite Et, Ee, E1, E2. repeat split; try assumption.
      * exists (m1 ++ [t]). now rewrite app_assoc.
      * now exists m2.
  - destruct IH as ((m1 & E1) & (m2 & E2) & E3 & E4).
    cbn [track_equity trades equity_curve initial_capital commission].
    repeat split; try assumption.
    + now exists m1.
    + exists (m2 ++ [pt]). now rewrite E2, app_assoc.
Qed.

Lemma logs_are_append_only_witness :
  (exists more,
     trades (run_loop (execute_trade (init 10000 (1 # 1000)) 20 250 2)
                      overcharged_rows)
     = trades (execute_trade (init 10000 (1 # 1000)) 20 250 2) ++ more) /\
  (exists more,
     equity_curve (run_loop (execute_trade (init 10000 (1 # 1000)) 20 250 2)
                            overcharged_rows)
     = equity_curve (execute_trade (init 10000 (1 # 1000)) 20 250 2) ++ more) /\
  initial_capital (run_loop (execute_trade (init 10000 (1 # 1000)) 20 250 2)
                            overcharged_rows) = 10000 /\
  commission (run_loop (execute_trade (init 10000 (1 # 1000)) 20 250 2)
                       overcharged_rows) = 1 # 1000.
Proof.
  apply (logs_are_append_only (execute_trade (init 10000 (1 # 1000)) 20 250 2)).
  apply run_loop_reachable.
Defined.

(** Marked at the fill price, a fill costs exactly the commission: at a
    non-negative price the portfolio value after [execute_trade] is the value
    before, less |shares * price| * commission when a record was appended. *)
Theorem fill_costs_the_commission (s : backtester) (p sh : Q) (ts : Z) :
  0 <= p ->
  (execute_trade s p sh ts = s \/
   get_portfolio_value (execute_trade s p sh ts) p
   == get_portfolio_value s p - Qabs (sh * p) * commission s) /\
  (0 <= commission s ->
   get_portfolio_value (execute_trade s p sh ts) p <= get_portfolio_value s p).
Proof.
  intro Hp.
  assert (H : execute_trade s p sh ts = s \/
              get_portfolio_value (execute_trade s p sh ts) p
              == get_portfolio_value s p - Qabs (sh * p) * commission s).
  { destruct (execute_trade_cases s p sh ts)
      as [E | (t & _ & _ & _ & Etp & (Hsh & Hr) & Hpos & Hcap & Habs)];
      [now left | right].
    unfold get_portfolio_value. rewrite Hpos, Hcap.
    assert (Hn : Qabs (shares t * p) == shares t * p).
    { apply Qabs_pos. now apply Qmult_le_0_compat. }
    unfold shares_delta, cash_delta. rewrite Etp in Hr.
    destruct (type t).
    - destruct Hr as (_ & v & -> & Hv). cbn [get].
      rewrite Hv, <- Habs, Hn. ring.
    - destruct Hr as (_ & v & -> & Hv). cbn [get].
      rewrite Hv, <- Habs, Hn. ring. }
  split; [exact H | ].
  intro Hc. destruct H as [-> | ->]; [apply Qle_refl | ].
  pose proof (Qabs_nonneg (sh * p)). nra.
Qed.

Lemma fill_costs_the_commission_witness :
  get_portfolio_value (execute_trade (init 10000 (1 # 1000)) 20 250 2) 20
  <= get_portfolio_value (init 10000 (1 # 1000)) 20.
Proof.
  apply fill_costs_the_commission; discriminate.
Defined.

End LedgerBooks.

(** ** The driver loop *)

Section DriverLoop.
Import SimpleBacktester Ledger Books.

Lemma execute_trade_equity_curve (s : backtester) (p sh : Q) (ts : Z) :
  equity_curve (execute_trade s p sh ts) = equity_curve s.
Proof.
  unfold execute_trade.
  destruct (Qgt_bool sh 0);
    [destruct (Qle_bool _ (capital s)) | destruct (Qle_bool _ (position s))];
    reflexivity.
Qed.

Lemma on_row_equity_curve (s : backtester) (r : row) :
  equity_curve (on_row s r)
  = equity_curve s ++
    [mk_point (row_idx r) (get_portfolio_value (on_row s r) (row_close r))].
Proof.
  unfold on_row. cbn [track_equity equity_curve]. f_equal.
  destruct (row_position r) as [p | ]; [ | reflexivity].
  destruct (0 <? p)%Z.
  - destruct (Qgt_bool _ 0); [apply execute_trade_equity_curve | reflexivity].
  - destruct (p <? 0)%Z; [ | reflexivity].
    destruct (Qgt_bool _ 0); [apply execute_trade_equity_curve | reflexivity].
Qed.

Lemma run_loop_snoc (s : backtester) (rows : list row) (r : row) :
  run_loop s (rows ++ [r]) = on_row (run_loop s rows) r.
Proof. unfold run_loop. now rewrite fold_left_app. Qed.

Lemma run_loop_timestamps (rows : list row) (s : backtester) :
  map point_timestamp (equity_curve (run_loop s rows))
  = map point_timestamp (equity_curve s) ++ map row_idx rows.
Proof.
  revert s. induction rows as [ | r rows IH]; intro s; simpl.
  - now rewrite app_nil_r.
  - rewrite IH, on_row_equity_curve, map_app, <- app_assoc. reflexivity.
Qed.

(** The loop records exactly one equity point per row, in row order, stamped
    with the row's index; the point of a row is the portfolio value, at that
    row's close, of the ledger as the row leaves it. *)
Theorem equity_curve_one_point_per_row
  (s : backtester) (rows : list row) (r : row) :
  map point_timestamp (equity_curve (run_loop s rows))
  = map point_timestamp (equity_curve s) ++ map row_idx rows /\
  List.length (equity_curve (run_loop s rows))
  = (List.length (equity_curve s) + List.length rows)%nat /\
  equity_curve (run_loop s (rows ++ [r]))
  = equity_curve (run_loop s rows) ++
    [mk_point (row_idx r)
              (get_portfolio_value (run_loop s (rows ++ [r])) (row_close r))].
Proof.
  split; [apply run_loop_timestamps | split].
  - rewrite <- (length_map point_timestamp), run_loop_timestamps.
    now rewrite length_app, !length_map.
  - rewrite run_loop_snoc. apply on_row_equity_curve.
Qed.

(** A sell signal on a held position is always filled: the order is for the
    whole position, so it passes the inventory check, one SELL record of that
    size is appended and the position is 0 afterwards. *)
Theorem sell_signal_closes_position (s : backtester) (r : row) (p : Z) :
  row_position r = Some p -> (p < 0)%Z -> 0 < position s ->
  position (on_row s r) == 0 /\
  exists t,
    trades (on_row s r) = trades s ++ [t] /\
    type t = SELL /\ timestamp t = row_idx r /\ price t = row_close r /\
    shares t == position s.
Proof.
  intros Hr Hp Hpos. unfold on_row. rewrite Hr.
  destruct (Z.ltb_spec 0 p) as [H | _]; [lia | ].
  destruct (Z.ltb_spec p 0) as [_ | H]; [ | lia].
  rewrite (Qgt_bool_true _ _ Hpos).
  cbn [track_equity position trades].
  rewrite (execute_trade_sell s (row_close r) (- position s) (row_idx r)) by lra.
  assert (Habs : Qabs (- position s) == position s).
  { rewrite Qabs_opp. apply Qabs_pos. lra. }
  assert (E : Qle_bool (Qabs (- position s)) (position s) = true).
  { apply Qle_bool_iff. rewrite Habs. apply Qle_refl. }
  cbv zeta. rewrite E. cbn [position trades]. split.
  - rewrite Habs. ring.
  - eexists. split; [reflexivity | ]. repeat split. exact Habs.
Qed.

Lemma sell_signal_closes_position_witness :
  position (on_row (execute_trade (init 10000 (1 # 1000)) 20 250 2)
                   (mk_row 4 29 (Some (-2)%Z))) == 0.
Proof.
  apply (sell_signal_closes_position _ _ (-2)%Z); reflexivity.
Defined.

Lemma floordiv_notional (x y : Q) :
  0 < y -> floordiv x y * y <= x.
Proof.
  intro Hy. unfold floordiv.
  pose proof (Qfloor_le (x / y)) as H.
  apply (Qmult_le_r _ _ y Hy) in H.
  assert (E : x / y * y == x) by (field; lra).
  now rewrite E in H.
Qed.

(** A buy signal is never rejected when the commission rate is at most 1:
    the order is for the whole shares that half of the cash buys at a
    positive close, so its cost with commission is within the cash.  Whenever
    that number of shares is positive, one BUY record of that size is
    appended and the position grows by it. *)
Theorem buy_signal_is_filled (s : backtester) (r : row) (p : Z) :
  row_position r = Some p -> (0 < p)%Z ->
  commission s <= 1 -> 0 < row_close r ->
  0 < floordiv (capital s * (1 # 2)) (row_close r) ->
  position (on_row s r)
  = position s + floordiv (capital s * (1 # 2)) (row_close r) /\
  0 <= capital (on_row s r) /\
  exists t,
    trades (on_row s r) = trades s ++ [t] /\
    type t = BUY /\ timestamp t = row_idx r /\ price t = row_close r /\
    shares t = floordiv (capital s * (1 # 2)) (row_close r).
Proof.
  intros Hr Hp Hc Hclose Hn. unfold on_row. rewrite Hr.
  destruct (Z.ltb_spec 0 p) as [_ | H]; [ | lia].
  rewrite (Qgt_bool_true _ _ Hn).
  cbn [track_equity position trades capital].
  set (n := floordiv (capital s * (1 # 2)) (row_close r)) in *.
  rewrite (execute_trade_buy s (row_close r) n (row_idx r) Hn).
  pose proof (floordiv_notional (capital s * (1 # 2)) (row_close r) Hclose)
    as Hfloor. fold n in Hfloor.
  assert (Hk : 0 <= n * row_close r) by (apply Qmult_le_0_compat; lra).
  assert (Habs : Qabs (n * row_close r) == n * row_close r)
    by now apply Qabs_pos.
  assert (Hslack : 0 <= n * row_close r * (1 - commission s))
    by (apply Qmult_le_0_compat; lra).
  assert (Hfit : Qabs (n * row_close r)
                 + Qabs (n * row_close r) * commission s <= capital s).
  { rewrite Habs. lra. }
  cbv zeta. rewrite (Qle_bool_true _ _ Hfit). cbn [position trades capital].
  split; [reflexivity | ]. split; [lra | ].
  eexists. split; [reflexivity | ]. repeat split.
Qed.

Lemma buy_signal_is_filled_witness :
  position (on_row (init 10000 (1 # 1000)) (mk_row 2 20 (Some 1%Z)))
  = 0 + floordiv (10000 * (1 # 2)) 20.
Proof.
  refine (proj1 (buy_signal_is_filled (init 10000 (1 # 1000))
                   (mk_row 2 20 (Some 1%Z)) 1%Z eq_refl _ _ _ _)).
  - reflexivity.
  - discriminate.
  - reflexivity.
  - reflexivity.
Defined.

(** *** The whole backtest *)

Lemma length_calculate_sma (prices : list Q) (period : nat) :
  List.length (calculate_sma prices period) = List.length prices.
Proof. unfold calculate_sma. now rewrite length_map, length_seq. Qed.

Lemma length_diff_from (xs : list Z) (prev : Z) :
  List.length (diff_from prev xs) = List.length xs.
Proof.
  revert prev. induction xs as [ | x xs IH]; intro prev; simpl;
    [ | rewrite IH]; reflexivity.
Qed.

Lemma length_diff (xs : list Z) : List.length (diff xs) = List.length xs.
Proof. destruct xs; simpl; [ | rewrite length_diff_from]; reflexivity. Qed.

Lemma map_fst_combine {A B : Type} (l : list A) (l' : list B) :
  List.length l = List.length l' -> map fst (combine l l') = l.
Proof.
  revert l'. induction l as [ | a l IH]; intros [ | b l'] H; simpl in *;
    try reflexivity; try discriminate.
  f_equal. apply IH. lia.
Qed.

Lemma add_columns_bars (data : list bar) (fast_period slow_period : nat) :
  map row_idx (add_columns data fast_period slow_period) = map idx data /\
  map row_close (add_columns data fast_period slow_period) = map close data.
Proof.
  unfold add_columns. rewrite !map_map. cbn [row_idx row_close].
  assert (H : map fst (combine data
                 (diff (map (fun fs => signal (fst fs) (snd fs))
                            (combine (calculate_sma (map close data) fast_period)
                                     (calculate_sma (map close data) slow_period)))))
              = data).
  { apply map_fst_combine.
    rewrite length_diff, length_map, length_combine, !length_calculate_sma,
      length_map. lia. }
  split.
  - rewrite <- (map_map fst idx), H. reflexivity.
  - rewrite <- (map_map fst close), H. reflexivity.
Qed.

Lemma reachable_initial_capital (s0 s : backtester) :
  reachable s0 s -> initial_capital s = initial_capital s0.
Proof.
  induction 1 as [ | s p sh ts _ IH | s pt _ IH ]; [reflexivity | | exact IH].
  rewrite <- IH. unfold execute_trade.
  destruct (Qgt_bool sh 0);
    [destruct (Qle_bool _ (capital s)) | destruct (Qle_bool _ (position s))];
    reflexivity.
Qed.

(** On a non-empty frame the run returns, and what it returns is read off
    the ledger the loop leaves. *)
Lemma run_on_bars (data : list bar) (fast_period slow_period : nat) :
  data <> [] ->
  exists pts pt,
    equity_curve (run_loop (init 10000 (1 # 1000))
                           (add_columns data fast_period slow_period))
    = pts ++ [pt] /\
    run_sma_crossover_backtest data fast_period slow_period
    = Returned
        {| res_initial_capital := 10000;
           res_final_value := value pt;
           res_total_return := (value pt - 10000) / 10000;
           res_max_drawdown := max_drawdown (map value (pts ++ [pt]));
           res_total_trades :=
             List.length (trades (run_loop (init 10000 (1 # 1000))
                            (add_columns data fast_period slow_period)));
           res_win_rate :=
             win_rate (trades (run_loop (init 10000 (1 # 1000))
                         (add_columns data fast_period slow_period)));
           res_equity_curve := pts ++ [pt];
           res_trades :=
             trades (run_loop (init 10000 (1 # 1000))
                       (add_columns data fast_period slow_period)) |}.
Proof.
  intro Hne. unfold run_sma_crossover_backtest. cbv zeta.
  set (bt := run_loop (init 10000 (1 # 1000))
                      (add_columns data fast_period slow_period)).
  assert (Hic : initial_capital bt = 10000).
  { subst bt. now rewrite (reachable_initial_capital _ _ (run_loop_reachable _ _)). }
  assert (Hcurve : equity_curve bt <> []).
  { intro E. apply (f_equal (map point_timestamp)) in E.
    subst bt. rewrite run_loop_timestamps in E.
    rewrite (proj1 (add_columns_bars _ _ _)) in E.
    destruct data; [congruence | discriminate]. }
  destruct (exists_last Hcurve) as (pts & pt & E).
  exists pts, pt. split; [exact E | ].
  rewrite Hic, E, map_app, rev_app_distr. reflexivity.
Qed.

(** An empty frame makes the run raise KeyError (the equity frame has no
    ['value'] column); on a non-empty frame the run returns a result with one
    equity point per bar, stamped with the bars' indices in order, whose
    final value is the last point, whose return is measured against the
    initial capital of 10000 and whose trade count is the length of the log. *)
Theorem run_returns_one_point_per_bar
  (data : list bar) (fast_period slow_period : nat) :
  match data with
  | [] => run_sma_crossover_backtest data fast_period slow_period
          = Raised KeyError
  | _ :: _ =>
      exists r pts pt,
        run_sma_crossover_backtest data fast_period slow_period = Returned r /\
        res_equity_curve r = pts ++ [pt] /\
        res_final_value r = value pt /\
        map point_timestamp (res_equity_curve r) = map idx data /\
        res_initial_capital r = 10000 /\
        res_total_return r = (value pt - 10000) / 10000 /\
        res_total_trades r = List.length (res_trades r)
  end.
Proof.
  destruct data as [ | b data]; [reflexivity | ].
  destruct (run_on_bars (b :: data) fast_period slow_period)
    as (pts & pt & E & Hrun); [discriminate | ].
  eexists. exists pts, pt. split; [exact Hrun | ].
  cbn [res_equity_curve res_final_value res_initial_capital res_total_return
       res_total_trades res_trades].
  repeat split.
  rewrite <- E, run_loop_timestamps.
  now rewrite (proj1 (add_columns_bars _ _ _)).
Qed.

(** *** A flat series *)

Lemma fold_left_Qplus_const (c : Q) (l : list Q) (a : Q) :
  Forall (fun x => x == c) l ->
  fold_left Qplus l a == a + inject_Z (Z.of_nat (List.length l)) * c.
Proof.
  revert a. induction l as [ | x l IH]; intros a H.
  - simpl. ring.
  - apply Forall_cons_iff in H. destruct H as [Hx Hl].
    cbn [fold_left List.length]. rewrite (IH _ Hl), Hx.
    rewrite Nat2Z.inj_succ. unfold Z.succ. rewrite inject_Z_plus. ring.
Qed.

Lemma Forall_window {A : Type} (P : A -> Prop) (l : list A) (n k : nat) :
  Forall P l -> Forall P (firstn n (skipn k l)).
Proof.
  intro H. rewrite <- (firstn_skipn k l) in H.
  apply Forall_app in H. destruct H as [_ H].
  rewrite <- (firstn_skipn n (skipn k l)) in H.
  apply Forall_app in H. tauto.
Qed.

(** Every defined moving average of a constant series is that constant. *)
Lemma calculate_sma_const (c : Q) (prices : list Q) (period : nat) (v : Q) :
  Forall (fun x => x == c) prices ->
  In (Some v) (calculate_sma prices period) -> v == c.
Proof.
  intros Hc Hin. unfold calculate_sma in Hin.
  apply in_map_iff in Hin. destruct Hin as (i & E & Hi).
  apply in_seq in Hi.
  destruct ((1 <=? period) && (period <=? S i))%nat eqn:B; [ | discriminate].
  apply andb_true_iff in B. destruct B as [B1 B2].
  apply Nat.leb_le in B1, B2.
  set (w := firstn period (skipn (S i - period) prices)) in E.
  assert (Hw : Forall (fun x => x == c) w) by now apply Forall_window.
  assert (Hlen : List.length w = period).
  { subst w. rewrite length_firstn, length_skipn. lia. }
  clearbody w. injection E as <-. unfold Qsum.
  rewrite (fold_left_Qplus_const c _ _ Hw), Hlen.
  field. intro H.
  assert (Hp : 0 < inject_Z (Z.of_nat period)).
  { change 0 with (inject_Z 0). rewrite <- Zlt_Qlt. lia. }
  rewrite H in Hp. discriminate Hp.
Qed.

Lemma signal_const (c : Q) (f s : option Q) :
  (forall v, f = Some v -> v == c) -> (forall v, s = Some v -> v == c) ->
  signal f s = 0%Z.
Proof.
  intros Hf Hs. unfold signal.
  destruct f as [x | ]; [ | reflexivity].
  destruct s as [y | ]; [ | reflexivity].
  specialize (Hf x eq_refl). specialize (Hs y eq_refl).
  assert (E1 : Qlt_bool x y = false) by (apply Qlt_bool_false_iff; lra).
  assert (E2 : Qgt_bool x y = false) by (apply Qgt_bool_false; lra).
  now rewrite E1, E2.
Qed.

Lemma diff_from_zeros (xs : list Z) :
  Forall (fun x => x = 0%Z) xs ->
  Forall (fun d => d = None \/ d = Some 0%Z) (diff_from 0 xs).
Proof.
  induction 1 as [ | x xs -> _ IH]; simpl; constructor; auto.
Qed.

Lemma diff_zeros (xs : list Z) :
  Forall (fun x => x = 0%Z) xs ->
  Forall (fun d => d = None \/ d = Some 0%Z) (diff xs).
Proof.
  intro H. destruct H as [ | x xs -> H]; simpl; constructor; auto.
  now apply diff_from_zeros.
Qed.

Lemma add_columns_const (c : Q) (data : list bar) (f sl : nat) :
  (forall b, In b data -> close b == c) ->
  Forall Driver.quiet (add_columns data f sl).
Proof.
  intro Hc. unfold add_columns.
  assert (Hprices : Forall (fun x => x == c) (map close data)).
  { apply Forall_map, Forall_forall. exact Hc. }
  apply Forall_map, Forall_forall. intros [b d] Hin. cbn [row_position snd].
  apply in_combine_r in Hin. revert d Hin. apply Forall_forall, diff_zeros.
  apply Forall_map, Forall_forall. intros [x y] Hxy. cbn [fst snd].
  apply (signal_const c).
  - intros v ->. apply in_combine_l in Hxy.
    now apply (calculate_sma_const c _ _ _ Hprices Hxy).
  - intros v ->. apply in_combine_r in Hxy.
    now apply (calculate_sma_const c _ _ _ Hprices Hxy).
Qed.

Lemma on_row_quiet (s : backtester) (r : row) :
  Driver.quiet r ->
  on_row s r
  = track_equity s (mk_point (row_idx r) (get_portfolio_value s (row_close r))).
Proof. unfold on_row. intros [-> | ->]; reflexivity. Qed.

Lemma run_loop_quiet (rows : list row) (s : backtester) :
  Forall Driver.quiet rows ->
  trades (run_loop s rows) = trades s /\
  capital (run_loop s rows) = capital s /\
  position (run_loop s rows) = position s /\
  equity_curve (run_loop s rows)
  = equity_curve s ++
    map (fun r => mk_point (row_idx r) (get_portfolio_value s (row_close r)))
        rows.
Proof.
  intro H. revert s. induction H as [ | r rows Hr _ IH]; intro s; simpl.
  - now rewrite app_nil_r.
  - rewrite (on_row_quiet s r Hr).
    destruct (IH (track_equity s (mk_point (row_idx r)
                    (get_portfolio_value s (row_close r)))))
      as (E1 & E2 & E3 & E4).
    rewrite E1, E2, E3, E4. cbn [track_equity trades capital position equity_curve].
    repeat split. now rewrite <- app_assoc.
Qed.

(** On a non-empty series whose closes are all equal the two averages never
    differ, so no signal changes: the run makes no trade, every equity point
    and the final value equal the initial 10000, and the total return and the
    win rate are 0, whatever the two windows are. *)
Theorem flat_series_makes_no_trade
  (data : list bar) (fast_period slow_period : nat) (c : Q) :
  data <> [] ->
  (forall b, In b data -> close b == c) ->
  exists r,
    run_sma_crossover_backtest data fast_period slow_period = Returned r /\
    res_trades r = [] /\
    res_total_trades r = 0%nat /\
    Forall (fun pt => value pt == 10000) (res_equity_curve r) /\
    res_final_value r == 10000 /\
    res_total_return r == 0 /\
    res_win_rate r = 0.
Proof.
  intros Hne Hc.
  destruct (run_on_bars data fast_period slow_period Hne)
    as (pts & pt & E & Hrun).
  destruct (run_loop_quiet _ (init 10000 (1 # 1000))
              (add_columns_const c data fast_period slow_period Hc))
    as (Et & _ & _ & Ee).
  rewrite Et in Hrun.
  assert (Hall : Forall (fun p => value p == 10000) (pts ++ [pt])).
  { rewrite <- E, Ee. cbn [init equity_curve app].
    apply Forall_map, Forall_forall. intros r _.
    unfold get_portfolio_value. cbn [value init capital position]. ring. }
  assert (Hpt : value pt == 10000).
  { apply Forall_app in Hall. destruct Hall as [_ Hall].
    now apply Forall_inv in Hall. }
  eexists. split; [exact Hrun | ].
  cbn [res_trades res_total_trades res_equity_curve res_final_value
       res_total_return res_win_rate init trades List.length].
  repeat split; try assumption.
  rewrite Hpt. reflexivity.
Qed.

Lemma flat_series_makes_no_trade_witness :
  exists r,
    run_sma_crossover_backtest [mk_bar 0 50; mk_bar 1 50; mk_bar 2 50] 1 2
    = Returned r /\
    res_trades r = [] /\
    res_final_value r == 10000.
Proof.
  destruct (flat_series_makes_no_trade
              [mk_bar 0 50; mk_bar 1 50; mk_bar 2 50] 1 2 50)
    as (r & E & Ht & _ & _ & Hf & _).
  - discriminate.
  - intros b [<- | [<- | [<- | []]]]; reflexivity.
  - exists r. auto.
Defined.

(** *** Warm-up *)

Lemma in_firstn_seq (k n a x : nat) :
  In x (firstn k (seq a n)) -> (a <= x < a + k)%nat.
Proof.
  revert n a. induction k as [ | k IH]; intros n a H; [destruct H | ].
  destruct n as [ | n]; [destruct H | ].
  cbn [seq firstn] in H. destruct H as [<- | H]; [lia | ].
  apply IH in H. lia.
Qed.

Lemma calculate_sma_warm_up (prices : list Q) (period k : nat) :
  (k < period)%nat ->
  Forall (fun v => v = None) (firstn k (calculate_sma prices period)).
Proof.
  intro Hk. unfold calculate_sma. rewrite firstn_map.
  apply Forall_map, Forall_forall. intros i Hi.
  apply in_firstn_seq in Hi.
  destruct (Nat.leb_spec period (S i)) as [H | _]; [lia | ].
  now rewrite andb_false_r.
Qed.

Lemma firstn_diff_from (k : nat) (xs : list Z) (prev : Z) :
  firstn k (diff_from prev xs) = diff_from prev (firstn k xs).
Proof.
  revert xs prev. induction k as [ | k IH]; intros [ | x xs] prev;
    try reflexivity.
  cbn [diff_from firstn]. now rewrite IH.
Qed.

Lemma firstn_diff (k : nat) (xs : list Z) :
  firstn k (diff xs) = diff (firstn k xs).
Proof.
  destruct k as [ | k]; destruct xs as [ | x xs]; try reflexivity.
  cbn [diff firstn]. now rewrite firstn_diff_from.
Qed.

Lemma add_columns_warm_up (data : list bar) (f sl k : nat) :
  (k < Nat.max f sl)%nat ->
  Forall Driver.quiet (firstn k (add_columns data f sl)).
Proof.
  intro Hk. unfold add_columns.
  rewrite firstn_map, combine_firstn, firstn_diff, firstn_map, combine_firstn.
  apply Forall_map, Forall_forall. intros [b d] Hin. cbn [row_position snd].
  apply in_combine_r in Hin. revert d Hin. apply Forall_forall, diff_zeros.
  apply Forall_map, Forall_forall. intros [x y] Hxy. cbn [fst snd].
  destruct (Nat.max_spec f sl) as [[_ E] | [_ E]]; rewrite E in Hk.
  - apply in_combine_r in Hxy.
    pose proof (calculate_sma_warm_up (map close data) sl k Hk) as H.
    rewrite Forall_forall in H. rewrite (H _ Hxy).
    unfold signal. now destruct x.
  - apply in_combine_l in Hxy.
    pose proof (calculate_sma_warm_up (map close data) f k Hk) as H.
    rewrite Forall_forall in H. now rewrite (H _ Hxy).
Qed.

(** No order is placed before both windows are full: over any number of
    leading bars smaller than the larger of the two periods, the loop
    appends no trade and leaves cash and position as they were. *)
Theorem no_trade_during_warm_up
  (data : list bar) (fast_period slow_period k : nat) (s : backtester) :
  (k < Nat.max fast_period slow_period)%nat ->
  trades (run_loop s (firstn k (add_columns data fast_period slow_period)))
  = trades s /\
  capital (run_loop s (firstn k (add_columns data fast_period slow_period)))
  = capital s /\
  position (run_loop s (firstn k (add_columns data fast_period slow_period)))
  = position s.
Proof.
  intro Hk.
  destruct (run_loop_quiet _ s
              (add_columns_warm_up data fast_period slow_period k Hk))
    as (E1 & E2 & E3 & _).
  auto.
Qed.

Lemma no_trade_during_warm_up_witness :
  trades (run_loop (init 10000 (1 # 1000))
            (firstn 1 (add_columns Analytics.profitable_round_trip 1 2)))
  = [].
Proof.
  apply (no_trade_during_warm_up Analytics.profitable_round_trip 1 2 1
           (init 10000 (1 # 1000))).
  simpl. lia.
Defined.

End DriverLoop.

(** ** Bounds of the analytics *)

Section AnalyticsBounds.
Import SimpleBacktester Analytics.

Lemma winning_trades_le_sells (ts : list trade) :
  (winning_trades ts <= total_sell_trades ts)%nat.
Proof.
  unfold winning_trades, total_sell_trades.
  induction ts as [ | t ts IH]; [apply Nat.le_refl | ].
  cbn [filter]. destruct (is_sell t); cbn [andb].
  - destruct (gt_xfloat _ _); cbn [List.length]; lia.
  - exact IH.
Qed.

(** Whatever the trade list is, the win rate is a fraction between 0 and 1:
    the winning trades are counted among the SELL trades only. *)
Theorem win_rate_is_a_fraction (ts : list trade) :
  (winning_trades ts <= total_sell_trades ts)%nat /\
  0 <= win_rate ts /\ win_rate ts <= 1.
Proof.
  pose proof (winning_trades_le_sells ts) as H.
  split; [exact H | ]. unfold win_rate.
  destruct (Nat.ltb_spec 0 (total_sell_trades ts)) as [Hpos | _];
    [ | split; discriminate].
  assert (Ht : 0 < inject_Z (Z.of_nat (total_sell_trades ts))).
  { change 0 with (inject_Z 0). rewrite <- Zlt_Qlt. lia. }
  split.
  - apply Qle_shift_div_l; [exact Ht | ].
    rewrite Qmult_0_l. change 0 with (inject_Z 0). rewrite <- Zle_Qle. lia.
  - apply Qle_shift_div_r; [exact Ht | ].
    rewrite Qmult_1_l, <- Zle_Qle. lia.
Qed.

Lemma max_drawdown_attained (equity : list Q) :
  equity <> [] ->
  exists m i,
    max_drawdown equity = Some m /\
    (i < List.length equity)%nat /\
    m == drawdown_at equity i.
Proof.
  intro Hne. unfold max_drawdown, series_min.
  pose proof (length_drawdown equity) as Hlen.
  pose proof (nth_drawdown equity) as Hnth.
  destruct (drawdown equity) as [ | d ds].
  { destruct equity; [congruence | discriminate]. }
  simpl in Hlen.
  destruct (fold_min_spec ds d) as (_ & _ & [E | (y & Hy & E)]).
  - exists (fold_left Qmin ds d), 0%nat.
    split; [reflexivity | ]. split; [lia | ].
    rewrite <- Hnth by lia. exact E.
  - destruct (In_nth _ _ 0 Hy) as (j & Hj & Ej).
    exists (fold_left Qmin ds d), (S j).
    split; [reflexivity | ]. split; [lia | ].
    rewrite <- Hnth by lia. simpl. now rewrite Ej.
Qed.

(** On a non-empty series of positive equity values the maximum drawdown is
    above -1: no point lies a full 100% below the running maximum. *)
Theorem max_drawdown_above_minus_one (equity : list Q) :
  equity <> [] ->
  (forall v, In v equity -> 0 < v) ->
  exists m, max_drawdown equity = Some m /\ - (1) < m.
Proof.
  intros Hne Hpos.
  destruct (max_drawdown_attained equity Hne) as (m & i & E & Hi & Hm).
  exists m. split; [exact E | ]. rewrite Hm.
  destruct (drawdown_at_nonpos equity i Hpos Hi) as [Hrm _].
  unfold drawdown_at. apply Qlt_shift_div_l; [exact Hrm | ].
  assert (0 < nth i equity 0) by (apply Hpos, nth_In; exact Hi).
  lra.
Qed.

Lemma max_drawdown_above_minus_one_witness :
  exists m, max_drawdown [100; 90; 120] = Some m /\ - (1) < m.
Proof.
  apply max_drawdown_above_minus_one.
  - discriminate.
  - intros v [<- | [<- | [<- | []]]]; reflexivity.
Defined.

End AnalyticsBounds.

(** ** The oscillator *)

Section OscillatorProperties.
Import MeanReversion Oscillator.

(** Once the history holds period+1 closes (period at least 1) the RSI is a
    number between 0 and 100. *)
Theorem rsi_between_0_and_100 (self : MeanReversionStrategy.strategy) :
  (1 <= MeanReversionStrategy.rsi_period self)%Z ->
  (MeanReversionStrategy.rsi_period self + 1
   <= Z.of_nat (List.length (MeanReversionStrategy.price_history self)))%Z ->
  exists rsi,
    MeanReversionStrategy._calculate_rsi self = Some rsi /\
    0 <= rsi /\ rsi <= 100.
Proof.
  intros Hp Hn.
  destruct (calculate_rsi_averages self Hp Hn) as (g & l & Hg & Hl & E).
  assert (HG : 0 <= g).
  { rewrite Hg. apply average_over_nonneg; [apply step_gain_nonneg | lia]. }
  assert (HL : 0 <= l).
  { rewrite Hl. apply average_over_nonneg; [apply step_loss_nonneg | lia]. }
  rewrite E. destruct (Qeq_bool l 0) eqn:Ez.
  - exists 100. repeat split; discriminate.
  - apply Qeq_bool_neq in Ez. eexists. split; [reflexivity | ].
    assert (Hq : 0 <= g / l).
    { unfold Qdiv. apply Qmult_le_0_compat;
        [exact HG | now apply Qinv_le_0_compat]. }
    assert (Hd : 0 < 1 + g / l) by lra.
    assert (H1 : 100 / (1 + g / l) <= 100).
    { apply Qle_shift_div_r; [exact Hd | lra]. }
    assert (H2 : 0 <= 100 / (1 + g / l)).
    { apply Qle_shift_div_l; [exact Hd | lra]. }
    split; lra.
Qed.

Lemma rsi_between_0_and_100_witness :
  exists rsi,
    MeanReversionStrategy._calculate_rsi long_at_90 = Some rsi /\
    0 <= rsi /\ rsi <= 100.
Proof.
  apply rsi_between_0_and_100; vm_compute; discriminate.
Defined.

Lemma average_over_zero (f : Q -> Q -> Q) (w : list Q) (period : nat) :
  (forall j, (j < period)%nat -> f (nth j w 0) (nth (S j) w 0) == 0) ->
  average_over f w period == 0.
Proof.
  intro H. unfold average_over.
  rewrite (Qsum_map_ext _ (fun _ => 0)).
  - unfold Qsum.
    rewrite (fold_left_Qplus_const 0)
      by (apply Forall_map, Forall_forall; intros; reflexivity).
    unfold Qdiv. ring.
  - intros j Hj. apply in_seq in Hj. apply H. lia.
Qed.

Lemma fold_left_Qplus_above (l : list Q) (b c : Q) :
  (forall x, In x l -> 0 <= x) -> b <= c -> b <= fold_left Qplus l c.
Proof.
  revert c. induction l as [ | x l IH]; intros c Hl Hc; [exact Hc | ].
  cbn [fold_left]. apply IH.
  - intros z Hz. apply Hl. now right.
  - specialize (Hl x (or_introl eq_refl)). lra.
Qed.

Lemma fold_left_Qplus_ge (l : list Q) (a y : Q) :
  (forall x, In x l -> 0 <= x) -> In y l -> a + y <= fold_left Qplus l a.
Proof.
  revert a. induction l as [ | x l IH]; intros a Hl Hy; [destruct Hy | ].
  cbn [fold_left]. destruct Hy as [-> | Hy].
  - apply fold_left_Qplus_above; [ | apply Qle_refl].
    intros z Hz. apply Hl. now right.
  - specialize (IH (a + x) (fun z Hz => Hl z (or_intror Hz)) Hy).
    specialize (Hl x (or_introl eq_refl)). lra.
Qed.

Lemma average_over_pos (f : Q -> Q -> Q) (w : list Q) (period j : nat) :
  (forall a b, 0 <= f a b) -> (j < period)%nat ->
  0 < f (nth j w 0) (nth (S j) w 0) ->
  0 < average_over f w period.
Proof.
  intros Hf Hj Hpos. unfold average_over.
  apply Qlt_shift_div_l.
  - change 0 with (inject_Z 0). rewrite <- Zlt_Qlt. lia.
  - rewrite Qmult_0_l. unfold Qsum.
    eapply Qlt_le_trans; [ | apply (fold_left_Qplus_ge _ 0
                                     (f (nth j w 0) (nth (S j) w 0)))].
    + lra.
    + intros x Hx. apply in_map_iff in Hx. destruct Hx as (i & <- & _).
      apply Hf.
    + apply in_map_iff. exists j. split; [reflexivity | ].
      apply in_seq. lia.
Qed.

(** The two ends of the scale.  When none of the last period steps is a fall
    the RSI is exactly 100; when none is a rise and at least one is a fall it
    is 0. *)
Theorem rsi_of_one_way_window
  (self : MeanReversionStrategy.strategy) (j : nat) :
  (1 <= MeanReversionStrategy.rsi_period self)%Z ->
  (MeanReversionStrategy.rsi_period self + 1
   <= Z.of_nat (List.length (MeanReversionStrategy.price_history self)))%Z ->
  (no_fall (window (MeanReversionStrategy.price_history self)
                   (Z.to_nat (MeanReversionStrategy.rsi_period self)))
           (Z.to_nat (MeanReversionStrategy.rsi_period self)) ->
   MeanReversionStrategy._calculate_rsi self = Some 100) /\
  (no_rise (window (MeanReversionStrategy.price_history self)
                   (Z.to_nat (MeanReversionStrategy.rsi_period self)))
           (Z.to_nat (MeanReversionStrategy.rsi_period self)) ->
   (j < Z.to_nat (MeanReversionStrategy.rsi_period self))%nat ->
   nth (S j) (window (MeanReversionStrategy.price_history self)
                     (Z.to_nat (MeanReversionStrategy.rsi_period self))) 0
   < nth j (window (MeanReversionStrategy.price_history self)
                   (Z.to_nat (MeanReversionStrategy.rsi_period self))) 0 ->
   exists rsi,
     MeanReversionStrategy._calculate_rsi self = Some rsi /\ rsi == 0).
Proof.
  intros Hp Hn.
  destruct (calculate_rsi_averages self Hp Hn) as (g & l & Hg & Hl & E).
  set (p := Z.to_nat (MeanReversionStrategy.rsi_period self)) in *.
  set (w := window (MeanReversionStrategy.price_history self) p) in *.
  unfold avg_gain, avg_loss in Hg, Hl. fold w in Hg, Hl.
  split.
  - intro Hup.
    assert (Hz : l == 0).
    { rewrite Hl. apply average_over_zero. intros i Hi.
      unfold step_loss. apply Q.max_r. specialize (Hup i Hi). lra. }
    rewrite E. apply Qeq_bool_iff in Hz. now rewrite Hz.
  - intros Hdown Hj Hfall.
    assert (Hz : g == 0).
    { rewrite Hg. apply average_over_zero. intros i Hi.
      unfold step_gain. apply Q.max_r. specialize (Hdown i Hi). lra. }
    assert (Hpos : 0 < l).
    { rewrite Hl. apply (average_over_pos _ _ _ j);
        [apply step_loss_nonneg | exact Hj | ].
      unfold step_loss. eapply Qlt_le_trans; [ | apply Q.le_max_l]. lra. }
    rewrite E. destruct (Qeq_bool l 0) eqn:Ez.
    + apply Qeq_bool_iff in Ez. rewrite Ez in Hpos. discriminate Hpos.
    + eexists. split; [reflexivity | ]. rewrite Hz. field. lra.
Qed.

Lemma rsi_of_one_way_window_witness :
  MeanReversionStrategy._calculate_rsi
    (MeanReversionStrategy.on_data long_at_90 95) = Some 100 /\
  exists rsi,
    MeanReversionStrategy._calculate_rsi long_at_90 = Some rsi /\ rsi == 0.
Proof.
  split.
  - destruct (rsi_of_one_way_window
                (MeanReversionStrategy.on_data long_at_90 95) 0) as [H _];
      [vm_compute; discriminate | vm_compute; discriminate | ].
    apply H.
    intros [ | i] Hi; [vm_compute; discriminate | vm_compute in Hi; lia].
  - destruct (rsi_of_one_way_window long_at_90 0) as [_ H];
      [vm_compute; discriminate | vm_compute; discriminate | ].
    apply H.
    + intros [ | i] Hi; [vm_compute; discriminate | vm_compute in Hi; lia].
    + vm_compute. lia.
    + vm_compute. reflexivity.
Defined.

End OscillatorProperties.

(** ** Bookkeeping of the mean-reversion strategy *)

Section BookkeepingProperties.
Import MeanReversion Bookkeeping.

Lemma exit_long_same_setup (self : MeanReversionStrategy.strategy) (c : Q) :
  same_setup self (MeanReversionStrategy.exit_long self c).
Proof.
  unfold MeanReversionStrategy.exit_long, MeanReversionStrategy._record_trade.
  cbn [MeanReversionStrategy.entry_price MeanReversionStrategy.set_base].
  destruct (MeanReversionStrategy.entry_price self) as [e | ];
    [destruct (MeanReversionStrategy.truthy (Some e)) | ];
    repeat split.
Qed.

Lemma on_data_same_setup (self : MeanReversionStrategy.strategy) (c : Q) :
  same_setup self (MeanReversionStrategy.on_data self c).
Proof.
  unfold MeanReversionStrategy.on_data.
  set (s1 := MeanReversionStrategy.append_price self c).
  assert (H1 : same_setup self s1) by (repeat split).
  assert (Hx : same_setup self (MeanReversionStrategy.exit_long s1 c)).
  { destruct (exit_long_same_setup s1 c) as (E1 & E2 & E3 & E4 & E5 & E6).
    unfold same_setup. rewrite E1, E2, E3, E4, E5, E6. exact H1. }
  clearbody s1.
  destruct (_ <? _)%Z; [exact H1 | ].
  destruct (Qeq_bool _ 0).
  - destruct (MeanReversionStrategy.rsi_lt _ _); [ | exact H1].
    destruct H1 as (E1 & E2 & E3 & E4 & E5 & E6). repeat split; assumption.
  - destruct (Qgt_bool _ 0); [ | exact H1].
    destruct (MeanReversionStrategy.rsi_gt _ _);
      [ | destruct (MeanReversionStrategy.stop_loss_hit _ _)];
      assumption.
Qed.

(** Feeding bars only extends the price history, by exactly the closes fed,
    in order.  The strategy never touches its capital or its equity curve
    (no fill is ever accounted for), nor its name and options. *)
Theorem bars_only_extend_history
  (closes : list Q) (self : MeanReversionStrategy.strategy) :
  MeanReversionStrategy.price_history
    (fold_left MeanReversionStrategy.on_data closes self)
  = MeanReversionStrategy.price_history self ++ closes /\
  same_setup self (fold_left MeanReversionStrategy.on_data closes self).
Proof.
  revert self. induction closes as [ | c closes IH]; intro self; simpl.
  - rewrite app_nil_r. repeat split.
  - destruct (IH (MeanReversionStrategy.on_data self c)) as [Eh Es].
    rewrite Eh, on_data_price_history, <- app_assoc.
    split; [reflexivity | ].
    destruct (on_data_same_setup self c) as (E1 & E2 & E3 & E4 & E5 & E6).
    destruct Es as (F1 & F2 & F3 & F4 & F5 & F6).
    unfold same_setup. rewrite F1, F2, F3, F4, F5, F6.
    repeat split; assumption.
Qed.

Lemma on_data_flat_without_entry (s : MeanReversionStrategy.strategy) (c : Q) :
  (MeanReversionStrategy.entry_price s = None ->
   MeanReversionStrategy.position s == 0) ->
  MeanReversionStrategy.entry_price (MeanReversionStrategy.on_data s c) = None ->
  MeanReversionStrategy.position (MeanReversionStrategy.on_data s c) == 0.
Proof.
  unfold MeanReversionStrategy.on_data.
  set (s1 := MeanReversionStrategy.append_price s c).
  change (MeanReversionStrategy.entry_price s)
    with (MeanReversionStrategy.entry_price s1).
  change (MeanReversionStrategy.position s)
    with (MeanReversionStrategy.position s1).
  clearbody s1. intro H.
  destruct (_ <? _)%Z; [exact H | ].
  destruct (Qeq_bool (MeanReversionStrategy.position s1) 0) eqn:Ez.
  - destruct (MeanReversionStrategy.rsi_lt _ _); [ | exact H].
    cbn [MeanReversionStrategy.entry_price
         MeanReversionStrategy.set_entry_price]. discriminate.
  - destruct (Qgt_bool _ 0); [ | exact H].
    destruct (MeanReversionStrategy.rsi_gt _ _);
      [ | destruct (MeanReversionStrategy.stop_loss_hit _ _); [ | exact H]];
      intros _; apply exit_long_position.
Qed.

(** A strategy that remembers no entry price is flat: in every state reached
    from the constructor by funding and bars, [entry_price is None] implies a
    position of 0 (so a held position always has the entry price its
    stop-loss test and its trade record read). *)
Theorem no_entry_price_means_flat
  (name : string) (rsi_period : Z) (rsi_oversold rsi_overbought : Q)
  (s0 s : MeanReversionStrategy.strategy) :
  MeanReversionStrategy.init name rsi_period rsi_oversold rsi_overbought
  = Returned s0 ->
  reachable s0 s ->
  MeanReversionStrategy.entry_price s = None ->
  MeanReversionStrategy.position s == 0.
Proof.
  intros Hinit R. injection Hinit as <-.
  induction R as [ | s amount _ IH | s c _ IH ].
  - intros _. reflexivity.
  - exact IH.
  - now apply on_data_flat_without_entry.
Qed.

Lemma no_entry_price_means_flat_witness :
  MeanReversionStrategy.position (MeanReversionStrategy.on_data long_at_90 95)
  == 0.
Proof.
  refine (no_entry_price_means_flat MeanReversionStrategy.default_name 1 30 70
            _ _ eq_refl _ _).
  - apply reachable_bar, reachable_bar, reachable_bar, reachable_funded,
      reachable_start.
  - vm_compute. reflexivity.
Defined.

Lemma on_data_unfunded (s : MeanReversionStrategy.strategy) (c : Q) :
  MeanReversionStrategy.position s == 0 ->
  MeanReversionStrategy.current_capital s == 0 ->
  MeanReversionStrategy.position (MeanReversionStrategy.on_data s c) == 0 /\
  MeanReversionStrategy.current_capital (MeanReversionStrategy.on_data s c)
    == 0 /\
  MeanReversionStrategy.trades (MeanReversionStrategy.on_data s c)
    = MeanReversionStrategy.trades s.
Proof.
  unfold MeanReversionStrategy.on_data.
  set (s1 := MeanReversionStrategy.append_price s c).
  change (MeanReversionStrategy.position s)
    with (MeanReversionStrategy.position s1).
  change (MeanReversionStrategy.current_capital s)
    with (MeanReversionStrategy.current_capital s1).
  change (MeanReversionStrategy.trades s)
    with (MeanReversionStrategy.trades s1).
  clearbody s1. intros Hpos Hcap.
  destruct (_ <? _)%Z; [now repeat split | ].
  apply Qeq_bool_iff in Hpos. rewrite Hpos. apply Qeq_bool_iff in Hpos.
  destruct (MeanReversionStrategy.rsi_lt _ _); [ | now repeat split].
  unfold MeanReversionStrategy.position, MeanReversionStrategy.current_capital,
         MeanReversionStrategy.trades in *.
  cbn. unfold BaseStrategy.calculate_position_size,
              BaseStrategy.default_risk_per_trade.
  split; [ | split; [exact Hcap | reflexivity]].
  rewrite Hpos, Hcap. reflexivity.
Qed.

(** A strategy that is constructed and fed bars without being funded never
    holds a position and never records a trade: its capital stays 0, so every
    entry it signals has size 0. *)
Theorem unfunded_strategy_never_trades
  (name : string) (rsi_period : Z) (rsi_oversold rsi_overbought : Q)
  (s0 : MeanReversionStrategy.strategy) (closes : list Q) :
  MeanReversionStrategy.init name rsi_period rsi_oversold rsi_overbought
  = Returned s0 ->
  MeanReversionStrategy.position
    (fold_left MeanReversionStrategy.on_data closes s0) == 0 /\
  MeanReversionStrategy.trades
    (fold_left MeanReversionStrategy.on_data closes s0) = [].
Proof.
  intro Hinit. injection Hinit as <-.
  set (s0 := {| MeanReversionStrategy.base := BaseStrategy.init name |}).
  assert (H : MeanReversionStrategy.position s0 == 0 /\
              MeanReversionStrategy.current_capital s0 == 0 /\
              MeanReversionStrategy.trades s0 = []) by (repeat split).
  clearbody s0. revert s0 H.
  induction closes as [ | c closes IH]; intros s (Hp & Hc & Ht); simpl.
  - now split.
  - destruct (on_data_unfunded s c Hp Hc) as (Hp' & Hc' & Ht').
    apply IH. repeat split; try assumption. now rewrite Ht'.
Qed.

Lemma unfunded_strategy_never_trades_witness :
  exists s0,
    MeanReversionStrategy.init MeanReversionStrategy.default_name 1 30 70
    = Returned s0 /\
    MeanReversionStrategy.trades
      (fold_left MeanReversionStrategy.on_data [100; 90; 95] s0) = [].
Proof.
  eexists. split; [reflexivity | ].
  apply (unfunded_strategy_never_trades
           MeanReversionStrategy.default_name 1 30 70 _ [100; 90; 95] eq_refl).
Defined.

End BookkeepingProperties.

(** ** Metrics of the base strategy *)

Section MetricsProperties.
Import Orders Metrics.

Lemma select_by_pnl_objects (test : Q -> bool) (ts : list BaseStrategy.trade_entry) :
  Forall is_trade_object ts ->
  BaseStrategy.select_by_pnl test ts
  = Returned (filter (fun t => test (pnl_of t)) ts).
Proof.
  induction 1 as [ | t ts Ht _ IH]; [reflexivity | ].
  destruct t as [t | d]; [ | destruct Ht].
  cbn [BaseStrategy.select_by_pnl BaseStrategy.getattr_pnl bind filter pnl_of].
  rewrite IH. cbn [bind]. reflexivity.
Qed.

Lemma sum_pnl_from_objects (ts : list BaseStrategy.trade_entry) (acc : Q) :
  Forall is_trade_object ts ->
  BaseStrategy.sum_pnl_from acc ts
  = Returned (fold_left Qplus (map pnl_of ts) acc).
Proof.
  intro H. revert acc. induction H as [ | t ts Ht _ IH]; intro acc;
    [reflexivity | ].
  destruct t as [t | d]; [ | destruct Ht].
  cbn [BaseStrategy.sum_pnl_from BaseStrategy.getattr_pnl bind map fold_left
       pnl_of].
  apply IH.
Qed.

Lemma filter_objects (f : BaseStrategy.trade_entry -> bool)
  (ts : list BaseStrategy.trade_entry) :
  Forall is_trade_object ts -> Forall is_trade_object (filter f ts).
Proof.
  intro H. apply Forall_forall. intros t Ht. apply filter_In in Ht.
  rewrite Forall_forall in H. now apply H.
Qed.

Lemma winners_and_losers (ts : list BaseStrategy.trade_entry) :
  (List.length (winners ts) + List.length (losers ts) <= List.length ts)%nat.
Proof.
  unfold winners, losers. induction ts as [ | t ts IH]; [apply Nat.le_refl | ].
  cbn [filter List.length].
  destruct (Qgt_bool (pnl_of t) 0) eqn:Eg.
  - apply Qgt_bool_iff in Eg.
    assert (El : Qlt_bool (pnl_of t) 0 = false)
      by (apply Qlt_bool_false_iff; lra).
    rewrite El. cbn [List.length]. lia.
  - destruct (Qlt_bool (pnl_of t) 0); cbn [List.length]; lia.
Qed.

(** What [get_metrics] returns when every entry is a [Trade] object. *)
Lemma get_metrics_objects (b : BaseStrategy.strategy) :
  Forall is_trade_object (BaseStrategy.trades b) ->
  BaseStrategy.trades b <> [] ->
  BaseStrategy.get_metrics b
  = Returned
      [ ("total_trades"%string, len (BaseStrategy.trades b));
        ("winning_trades"%string, len (winners (BaseStrategy.trades b)));
        ("losing_trades"%string, len (losers (BaseStrategy.trades b)));
        ("win_rate"%string,
         BaseStrategy.round (len (winners (BaseStrategy.trades b))
                             / len (BaseStrategy.trades b)) 3);
        ("total_pnl"%string,
         BaseStrategy.round (Qsum (map pnl_of (BaseStrategy.trades b))) 2);
        ("average_win"%string,
         BaseStrategy.round
           match winners (BaseStrategy.trades b) with
           | [] => 0
           | _ :: _ => Qsum (map pnl_of (winners (BaseStrategy.trades b)))
                       / len (winners (BaseStrategy.trades b))
           end 2);
        ("average_loss"%string,
         BaseStrategy.round
           match losers (BaseStrategy.trades b) with
           | [] => 0
           | _ :: _ => Qsum (map pnl_of (losers (BaseStrategy.trades b)))
                       / len (losers (BaseStrategy.trades b))
           end 2) ].
Proof.
  intros Hall Hne. unfold BaseStrategy.get_metrics.
  destruct (BaseStrategy.trades b) as [ | t ts] eqn:E; [congruence | ].
  rewrite !(select_by_pnl_objects _ _ Hall). cbn [bind].
  fold (winners (t :: ts)). fold (losers (t :: ts)).
  unfold BaseStrategy.sum_pnl. rewrite (sum_pnl_from_objects _ _ Hall).
  cbn [bind]. fold (Qsum (map pnl_of (t :: ts))).
  pose proof (filter_objects (fun t => Qgt_bool (pnl_of t) 0) _ Hall) as Hw.
  pose proof (filter_objects (fun t => Qlt_bool (pnl_of t) 0) _ Hall) as Hl.
  fold (winners (t :: ts)) in Hw. fold (losers (t :: ts)) in Hl.
  destruct (winners (t :: ts)) as [ | w ws] eqn:Ew;
    destruct (losers (t :: ts)) as [ | l ls] eqn:El; cbn [bind];
    rewrite ?(sum_pnl_from_objects _ _ Hw), ?(sum_pnl_from_objects _ _ Hl);
    reflexivity.
Qed.

(** On a non-empty list of [Trade] objects [get_metrics] returns the seven
    entries in this order: the number of trades, the numbers of trades with
    positive and with negative pnl (together at most the number of trades),
    then win_rate = round(winning / total, 3), total_pnl = round(sum, 2),
    average_win and average_loss. *)
Theorem get_metrics_on_trade_objects (b : BaseStrategy.strategy) :
  Forall is_trade_object (BaseStrategy.trades b) ->
  BaseStrategy.trades b <> [] ->
  (List.length (winners (BaseStrategy.trades b))
   + List.length (losers (BaseStrategy.trades b))
   <= List.length (BaseStrategy.trades b))%nat /\
  exists average_win average_loss,
    BaseStrategy.get_metrics b
    = Returned
        [ ("total_trades"%string, len (BaseStrategy.trades b));
          ("winning_trades"%string, len (winners (BaseStrategy.trades b)));
          ("losing_trades"%string, len (losers (BaseStrategy.trades b)));
          ("win_rate"%string,
           BaseStrategy.round (len (winners (BaseStrategy.trades b))
                               / len (BaseStrategy.trades b)) 3);
          ("total_pnl"%string,
           BaseStrategy.round (Qsum (map pnl_of (BaseStrategy.trades b))) 2);
          ("average_win"%string, average_win);
          ("average_loss"%string, average_loss) ].
Proof.
  intros Hall Hne. split; [apply winners_and_losers | ].
  eexists. eexists. apply (get_metrics_objects b Hall Hne).
Qed.

Lemma get_metrics_on_trade_objects_witness :
  exists average_win average_loss,
    BaseStrategy.get_metrics
      (BaseStrategy.append_trade
         (BaseStrategy.append_trade (BaseStrategy.init "s")
            (BaseStrategy.TradeObject
               (BaseStrategy.mk_Trade 0 1 90 95 2 10 (5 # 90))))
         (BaseStrategy.TradeObject
            (BaseStrategy.mk_Trade 2 3 100 94 2 (- (12)) (- (6) # 100))))
    = Returned
        [ ("total_trades"%string, 2);
          ("winning_trades"%string, 1);
          ("losing_trades"%string, 1);
          ("win_rate"%string, BaseStrategy.round (1 / 2) 3);
          ("total_pnl"%string, BaseStrategy.round (Qsum [10; - (12)]) 2);
          ("average_win"%string, average_win);
          ("average_loss"%string, average_loss) ].
Proof.
  refine (proj2 (get_metrics_on_trade_objects _ _ _)).
  - repeat constructor.
  - discriminate.
Defined.

(** [get_metrics] fails exactly when the trade list holds a dict, and
    AttributeError is the only exception it can raise. *)
Theorem get_metrics_raises_iff_dict (b : BaseStrategy.strategy) :
  (BaseStrategy.get_metrics b = Raised AttributeError
   <-> Exists is_dict (BaseStrategy.trades b)) /\
  (forall e, BaseStrategy.get_metrics b = Raised e -> e = AttributeError).
Proof.
  assert (Hdec : forall t, {is_trade_object t} + {~ is_trade_object t}).
  { intros [t | d]; [left | right]; simpl; tauto. }
  destruct (Forall_Exists_dec is_trade_object Hdec (BaseStrategy.trades b))
    as [Hall | Hex].
  - assert (Hret : exists m, BaseStrategy.get_metrics b = Returned m).
    { destruct (BaseStrategy.trades b) as [ | t ts] eqn:E.
      - unfold BaseStrategy.get_metrics. rewrite E. eauto.
      - rewrite <- E in Hall. eexists. apply get_metrics_objects; congruence. }
    destruct Hret as (m & Hm). rewrite Hm. split.
    + split; [discriminate | ].
      intro Hd. exfalso. apply Exists_exists in Hd.
      destruct Hd as (t & Ht & Hdict). rewrite Forall_forall in Hall.
      specialize (Hall t Ht). destruct t; [destruct Hdict | destruct Hall].
    + discriminate.
  - assert (Hd : Exists is_dict (BaseStrategy.trades b)).
    { apply Exists_exists in Hex. destruct Hex as (t & Ht & Hn).
      apply Exists_exists. exists t. split; [exact Ht | ].
      destruct t; simpl in *; tauto. }
    rewrite (get_metrics_raises b Hd). split.
    + tauto.
    + intros e H. now injection H as <-.
Qed.

Lemma get_metrics_raises_iff_dict_witness :
  BaseStrategy.get_metrics
    (BaseStrategy.append_trade (BaseStrategy.init "s")
       (BaseStrategy.Dict [("pnl"%string, 0)]))
  = Raised AttributeError.
Proof.
  apply (proj1 (get_metrics_raises_iff_dict _)).
  apply Exists_cons_hd. exact I.
Defined.

End MetricsProperties.

(** ** Edge cases of the orders *)

Section OrderEdges.
Import SimpleBacktester.

(** An order of zero shares is not a buy: it takes the sell branch, passes
    the inventory check on any non-negative position and is logged as a SELL
    of size 0 with proceeds 0, leaving cash and position at their values. *)
Theorem zero_share_order_is_logged_as_sell
  (s : backtester) (p : Q) (ts : Z) :
  0 <= position s ->
  capital (execute_trade s p 0 ts) == capital s /\
  position (execute_trade s p 0 ts) == position s /\
  exists size got,
    trades (execute_trade s p 0 ts)
    = trades s ++ [mk_trade ts SELL p size None (Some got)] /\
    size == 0 /\ got == 0.
Proof.
  intro Hpos.
  rewrite (execute_trade_sell s p 0 ts) by apply Qle_refl.
  assert (Hz : Qabs 0 = 0) by reflexivity.
  assert (Hn : Qabs (0 * p) == 0) by (rewrite Qmult_0_l; reflexivity).
  cbv zeta. rewrite Hz, (Qle_bool_true _ _ Hpos).
  cbn [capital position trades].
  split; [rewrite Hn; ring | ]. split; [ring | ].
  eexists. eexists. split; [reflexivity | ].
  split; [reflexivity | ]. rewrite Hn. ring.
Qed.

Lemma zero_share_order_is_logged_as_sell_witness :
  capital (execute_trade (init 10000 (1 # 1000)) 20 0 2) == 10000.
Proof.
  apply (zero_share_order_is_logged_as_sell (init 10000 (1 # 1000)) 20 2).
  discriminate.
Defined.

Lemma on_data_short (s : MeanReversionStrategy.strategy) (c : Q) :
  MeanReversionStrategy.position s < 0 ->
  MeanReversionStrategy.base (MeanReversionStrategy.on_data s c)
  = MeanReversionStrategy.base s /\
  MeanReversionStrategy.entry_price (MeanReversionStrategy.on_data s c)
  = MeanReversionStrategy.entry_price s.
Proof.
  intro Hneg. unfold MeanReversionStrategy.on_data.
  set (s1 := MeanReversionStrategy.append_price s c).
  change (MeanReversionStrategy.base s) with (MeanReversionStrategy.base s1).
  change (MeanReversionStrategy.entry_price s)
    with (MeanReversionStrategy.entry_price s1).
  assert (H1 : MeanReversionStrategy.position s1 < 0) by exact Hneg.
  clearbody s1.
  destruct (_ <? _)%Z; [now split | ].
  destruct (Qeq_bool (MeanReversionStrategy.position s1) 0) eqn:Ez.
  - apply Qeq_bool_iff in Ez. rewrite Ez in H1. discriminate H1.
  - rewrite Qgt_bool_false by lra. now split.
Qed.

(** A negative position is never touched again: once the position is below
    0 (a buy sized from a negative capital), no bar changes the position, the
    trades or the entry price, whatever the RSI and the closes are. *)
Theorem negative_position_is_never_closed
  (closes : list Q) (s : MeanReversionStrategy.strategy) :
  MeanReversionStrategy.position s < 0 ->
  MeanReversionStrategy.base (fold_left MeanReversionStrategy.on_data closes s)
  = MeanReversionStrategy.base s /\
  MeanReversionStrategy.entry_price
    (fold_left MeanReversionStrategy.on_data closes s)
  = MeanReversionStrategy.entry_price s.
Proof.
  revert s. induction closes as [ | c closes IH]; intros s Hneg; simpl.
  - now split.
  - destruct (on_data_short s c Hneg) as [Eb Ee].
    destruct (IH (MeanReversionStrategy.on_data s c)) as [Eb' Ee'].
    + unfold MeanReversionStrategy.position. now rewrite Eb.
    + now rewrite Eb', Ee'.
Qed.

Lemma negative_position_is_never_closed_witness :
  MeanReversionStrategy.base
    (fold_left MeanReversionStrategy.on_data [95; 80; 120]
       (fold_left MeanReversionStrategy.on_data [100; 90]
          (MeanReversion.funded MeanReversion.one_step_strategy (- (10000)))))
  = MeanReversionStrategy.base
      (fold_left MeanReversionStrategy.on_data [100; 90]
         (MeanReversion.funded MeanReversion.one_step_strategy (- (10000)))).
Proof.
  apply negative_position_is_never_closed. vm_compute. reflexivity.
Defined.

End OrderEdges.
